(** * RTDIP pipeline components: a shallow embedding

    The development covers three components of the SDK:

    - [EdgeXJsonToPCDM]: the transformer of
      [pipelines/transformers/spark/edgex_json_to_pcdm.py], a chain of
      dataframe operations;
    - [Eventhub]: the source of [pipelines/sources/spark/eventhub.py], whose
      [read_batch] and [read_stream] mutate the options dictionary and call
      into the engine;
    - [AutoLoader]: the source exercised by
      [tests/.../sources/spark/test_autoloader.py].

    The dataframe engine is external to the repository.  Module [Spark]
    holds the part of its behaviour the transformer relies on: cells, rows,
    name resolution, column expressions and the dataframe operations. *)

From Stdlib Require Import ZArith Lia Ascii String Floats.SpecFloat.
From stdpp Require Import base strings gmap list.

Open Scope Z_scope.

(** ** Results of fallible calls *)

Inductive result (E A : Type) : Type :=
| Ok (a : A)
| Raise (e : E).
Arguments Ok {E A} a.
Arguments Raise {E A} e.

Definition bind {E A B} (m : result E A) (k : A -> result E B) : result E B :=
  match m with
  | Ok a => k a
  | Raise e => Raise e
  end.

Notation "x <- m ;; k" := (bind m (fun x => k))
  (at level 100, m at next level, right associativity).

Fixpoint mapM {E A B} (f : A -> result E B) (l : list A) : result E (list B) :=
  match l with
  | [] => Ok []
  | a :: l' => b <- f a ;; bs <- mapM f l' ;; Ok (b :: bs)
  end.

(** ** The dataframe engine *)

Module Spark.

(** IEEE 754 binary64, the engine's [DoubleType]. *)
Definition prec : Z := 53.
Definition emax : Z := 1024.

Definition long_to_double (n : Z) : spec_float := binary_normalize prec emax n 0 false.
Definition double_div : spec_float -> spec_float -> spec_float := SFdiv prec emax.
Definition double_mul : spec_float -> spec_float -> spec_float := SFmul prec emax.

Definition Long_MIN : Z := - 2 ^ 63.
Definition Long_MAX : Z := 2 ^ 63 - 1.

(** The JVM's narrowing of a double to a long: truncation toward zero,
    saturating at the ends of the range, NaN to 0. *)
Definition double_to_long (d : spec_float) : Z :=
  match d with
  | S754_zero _ => 0
  | S754_nan => 0
  | S754_infinity s => if s then Long_MIN else Long_MAX
  | S754_finite s m e =>
      let q := if 0 <=? e then Z.pos m * 2 ^ e else Z.pos m / 2 ^ (- e) in
      let t := if s then - q else q in
      Z.max Long_MIN (Z.min Long_MAX t)
  end.

Definition MICROS_PER_SECOND : Z := 1000000.

(** Modelled from the spec: [EDGEX_SCHEMA] ([_pipeline_utils/spark.py]) is
    not among the sources.  The spec's data model gives a payload with a
    device identifier and a list of readings, each reading with a
    nanosecond origin timestamp, a value and a value-type tag.  Every field
    is nullable, as the fields of a parsed JSON struct are. *)
Record Reading := {
  origin : option Z;
  value : option string;
  valueType : option string
}.

Record EdgeXEvent := {
  deviceName : option string;
  readings : option (list (option Reading))
}.

(** What a dataframe cell can hold along the transformer's pipeline. *)
Inductive cell : Type :=
| Null
| Str (s : string)
| Bool (b : bool)
| Long (n : Z)
| Double (d : spec_float)
| Timestamp (micros : Z)
| Struct (e : EdgeXEvent)
| Array (rs : list (option Reading))
| Element (r : Reading).

Definition Row : Type := list cell.

(** The types of columns.  [EventStruct] is the struct of [EDGEX_SCHEMA],
    [ReadingArray] the type of its readings and [ReadingStruct] that of one
    reading; [OtherType] stands for every type not named here (maps, other
    structs and arrays, other numbers). *)
Inductive DataType : Type :=
| NullType
| StringType
| BinaryType
| BooleanType
| LongType
| DoubleType
| TimestampType
| TimestampNTZType
| EventStruct
| ReadingStruct
| ReadingArray
| OtherType.

(** A dataframe: its columns, each with name and type, and its rows.  A
    cell of a column is null or of the column's type. *)
Record DataFrame := {
  schema : list (string * DataType);
  rows : list Row
}.

Definition columns (df : DataFrame) : list string := map fst (schema df).
Definition dtypes (df : DataFrame) : list DataType := map snd (schema df).

(** A time zone, as far as [to_utc_timestamp] needs it: the offset from UTC,
    in microseconds, that the zone's rules give to a local date-time (itself
    counted in microseconds from 1970-01-01T00:00:00 local). *)
Definition ZoneId : Type := Z -> Z.

Definition UTC : ZoneId := fun _ => 0.
Definition fixed_offset (hours : Z) : ZoneId := fun _ => hours * 3600 * MICROS_PER_SECOND.

(** [spark.sql.timestampType]. *)
Inductive TimestampKind : Type := TIMESTAMP_LTZ | TIMESTAMP_NTZ.

(** The session configuration the transformer's expressions read:
    [spark.sql.caseSensitive], [spark.sql.session.timeZone] and
    [spark.sql.timestampType]. *)
Record SQLConf := {
  caseSensitive : bool;
  sessionLocalTimeZone : ZoneId;
  timestampType : TimestampKind
}.

Inductive AnalysisException : Type :=
| UnresolvedColumn (name : string)
| AmbiguousReference (name : string)
| DataTypeMismatch (expression : string) (found : DataType).

Definition lower_ascii (a : ascii) : ascii :=
  let n := nat_of_ascii a in
  if ((65 <=? n) && (n <=? 90))%nat then ascii_of_nat (n + 32) else a.

Fixpoint lower (s : string) : string :=
  match s with
  | EmptyString => EmptyString
  | String a r => String (lower_ascii a) (lower r)
  end.

(** The name resolver: exact, or ignoring case (the default). *)
Definition resolver (conf : SQLConf) (a b : string) : bool :=
  if caseSensitive conf then String.eqb a b else String.eqb (lower a) (lower b).

(** Positions, from [i] on, of the columns that [name] resolves to. *)
Fixpoint candidates (conf : SQLConf) (name : string) (cols : list string) (i : nat) : list nat :=
  match cols with
  | [] => []
  | c :: cs =>
      if resolver conf c name then i :: candidates conf name cs (S i)
      else candidates conf name cs (S i)
  end.

Definition resolve (conf : SQLConf) (cols : list string) (name : string)
  : result AnalysisException nat :=
  match candidates conf name cols 0 with
  | [] => Raise (UnresolvedColumn name)
  | [i] => Ok i
  | _ => Raise (AmbiguousReference name)
  end.

(** A column expression: analysed against the schema of a dataframe, it is
    rejected or gives its type and a function of the row. *)
Definition Column : Type :=
  list (string * DataType) -> result AnalysisException (DataType * (Row -> cell)).

Definition col (conf : SQLConf) (name : string) : Column :=
  fun sch =>
    i <- resolve conf (map fst sch) name ;;
    Ok (nth i (map snd sch) NullType, fun row => nth i row Null).

Definition type_of (v : cell) : DataType :=
  match v with
  | Null => NullType
  | Str _ => StringType
  | Bool _ => BooleanType
  | Long _ => LongType
  | Double _ => DoubleType
  | Timestamp _ => TimestampType
  | Struct _ => EventStruct
  | Array _ => ReadingArray
  | Element _ => ReadingStruct
  end.

Definition lit (v : cell) : Column :=
  fun _ => Ok (type_of v, fun _ => v).

(** A function of the engine on one or on two columns, with the type of
    its result. *)
Definition lift1 (ty : DataType) (g : cell -> cell) (c : Column) : Column :=
  fun sch => tf <- c sch ;; Ok (ty, fun row => g (snd tf row)).

Definition lift2 (ty : DataType) (g : cell -> cell -> cell) (c1 c2 : Column) : Column :=
  fun sch =>
    tf1 <- c1 sch ;; tf2 <- c2 sch ;;
    Ok (ty, fun row => g (snd tf1 row) (snd tf2 row)).

Definition of_string (o : option string) : cell :=
  match o with Some s => Str s | None => Null end.

(** The type of [field] in a struct of the EdgeX schema. *)
Definition field_type (ty : DataType) (field : string) : option DataType :=
  match ty with
  | EventStruct =>
      if String.eqb field "deviceName" then Some StringType
      else if String.eqb field "readings" then Some ReadingArray
      else None
  | ReadingStruct =>
      if String.eqb field "origin" then Some LongType
      else if String.eqb field "value" then Some StringType
      else if String.eqb field "valueType" then Some StringType
      else None
  | _ => None
  end.

(** [c.field] on a struct of the EdgeX schema; a null struct gives null. *)
Definition get_field (field : string) (v : cell) : cell :=
  match v with
  | Struct e =>
      if String.eqb field "deviceName" then of_string (deviceName e)
      else if String.eqb field "readings" then
        match readings e with Some rs => Array rs | None => Null end
      else Null
  | Element r =>
      if String.eqb field "origin" then
        match origin r with Some n => Long n | None => Null end
      else if String.eqb field "value" then of_string (value r)
      else if String.eqb field "valueType" then of_string (valueType r)
      else Null
  | _ => Null
  end.

Definition getField (c : Column) (field : string) : Column :=
  fun sch =>
    tf <- c sch ;;
    match field_type (fst tf) field with
    | Some ty => Ok (ty, fun row => get_field field (snd tf row))
    | None => Raise (DataTypeMismatch field (fst tf))
    end.

Definition as_double (v : cell) : option spec_float :=
  match v with
  | Long n => Some (long_to_double n)
  | Double d => Some d
  | _ => None
  end.

Definition is_zero (d : spec_float) : bool :=
  match d with S754_zero _ => true | _ => false end.

(** The SQL operator [/]: both sides as doubles; null when a side is null
    or the divisor is zero. *)
Definition divide (a b : cell) : cell :=
  match as_double a, as_double b with
  | Some x, Some y => if is_zero y then Null else Double (double_div x y)
  | _, _ => Null
  end.

(** [to_timestamp] of one argument is a cast to the session's timestamp
    type.  A number is cast as a count of seconds only when that type is
    [TIMESTAMP_LTZ]; under [TIMESTAMP_NTZ] it goes through a string, which
    is no date-time text, and the result is null. *)
Definition to_timestamp (conf : SQLConf) (v : cell) : cell :=
  match v with
  | Timestamp t => Timestamp t
  | Double d =>
      match timestampType conf with
      | TIMESTAMP_NTZ => Null
      | TIMESTAMP_LTZ =>
          match d with
          | S754_nan | S754_infinity _ => Null
          | _ => Timestamp (double_to_long (double_mul d (long_to_double MICROS_PER_SECOND)))
          end
      end
  | _ => Null
  end.

Definition timestamp_type (conf : SQLConf) : DataType :=
  match timestampType conf with
  | TIMESTAMP_LTZ => TimestampType
  | TIMESTAMP_NTZ => TimestampNTZType
  end.

(** [to_utc_timestamp(ts, tz)]: the date-time that [ts] shows in UTC is
    read as a local date-time of [tz]. *)
Definition to_utc_timestamp (tz : ZoneId) (v : cell) : cell :=
  match v with
  | Timestamp t => Timestamp (t - tz t)
  | _ => Null
  end.

Definition current_timezone (conf : SQLConf) : ZoneId := sessionLocalTimeZone conf.

(** [c == s] for a string literal [s]: null on a null. *)
Definition eq_string (s : string) (v : cell) : cell :=
  match v with
  | Str t => Bool (String.eqb t s)
  | _ => Null
  end.

Definition eq_lit (c : Column) (s : string) : Column := lift1 BooleanType (eq_string s) c.

(** [when(...).when(...)...]: the branches in the order written. *)
Definition CaseWhen : Type := list (Column * cell).

Definition when (cond : Column) (v : string) : CaseWhen := [(cond, Str v)].
Definition and_when (cw : CaseWhen) (cond : Column) (v : string) : CaseWhen :=
  cw ++ [(cond, Str v)].

Fixpoint case_when (branches : list ((Row -> cell) * cell)) (dflt : cell) (row : Row) : cell :=
  match branches with
  | [] => dflt
  | (cond, v) :: rest =>
      match cond row with
      | Bool true => v
      | _ => case_when rest dflt row
      end
  end.

Definition otherwise (cw : CaseWhen) (v : string) : Column :=
  fun sch =>
    bs <- mapM (fun b : Column * cell => tf <- fst b sch ;; Ok (snd tf, snd b)) cw ;;
    Ok (StringType, case_when bs (Str v)).

(** The row under [*]: one cell per column of the dataframe. *)
Definition star {A} (cols : list A) (row : Row) : Row :=
  map (fun i => nth i row Null) (seq 0 (length cols)).

(** [df.withColumn(name, c)]: every column that [name] resolves to is
    replaced (and takes the name as written); without one the new column
    is appended. *)
Definition withColumn (conf : SQLConf) (name : string) (c : Column) (df : DataFrame)
  : result AnalysisException DataFrame :=
  tf <- c (schema df) ;;
  if existsb (fun n => resolver conf n name) (columns df) then
    Ok {| schema := map (fun fld : string * DataType =>
                           if resolver conf (fst fld) name then (name, fst tf) else fld)
                        (schema df);
          rows := map (fun row =>
                         map (fun i => if resolver conf (nth i (columns df) "") name
                                       then snd tf row else nth i row Null)
                             (seq 0 (length (columns df))))
                      (rows df) |}
  else
    Ok {| schema := schema df ++ [(name, fst tf)];
          rows := map (fun row => star (schema df) row ++ [snd tf row]) (rows df) |}.

(** [explode]: one element per output row; nothing for null or empty. *)
Definition explode (v : cell) : list cell :=
  match v with
  | Array rs => map (fun r => match r with Some x => Element x | None => Null end) rs
  | _ => []
  end.

Definition is_array (ty : DataType) : bool :=
  match ty with ReadingArray => true | _ => false end.

(** [df.select("*", explode(c))]: the generated column is named [col]. *)
Definition select_star_explode (c : Column) (df : DataFrame)
  : result AnalysisException DataFrame :=
  tf <- c (schema df) ;;
  if is_array (fst tf) then
    Ok {| schema := schema df ++ [("col"%string, ReadingStruct)];
          rows := flat_map (fun row => map (fun x => star (schema df) row ++ [x])
                                           (explode (snd tf row)))
                           (rows df) |}
  else Raise (DataTypeMismatch "explode" (fst tf)).

(** [df.selectExpr("e1 as n1", ...)]. *)
Definition selectExpr (exprs : list (Column * string)) (df : DataFrame)
  : result AnalysisException DataFrame :=
  tfs <- mapM (fun e : Column * string => fst e (schema df)) exprs ;;
  Ok {| schema := combine (map snd exprs) (map fst tfs);
        rows := map (fun row => map (fun tf : DataType * (Row -> cell) => snd tf row) tfs)
                    (rows df) |}.

(** [df.select(n1, ...)]. *)
Definition select (conf : SQLConf) (names : list string) (df : DataFrame)
  : result AnalysisException DataFrame :=
  selectExpr (map (fun n => (col conf n, n)) names) df.

End Spark.

(** ** The EdgeX transformer: [edgex_json_to_pcdm.py] *)

Module EdgeXJsonToPCDM.
Import Spark.

Record EdgeXJsonToPCDMTransformer := {
  data : DataFrame;
  status_null_value : string;
  change_type_value : string
}.

(** [__init__(self, data, status_null_value="Good", change_type_value="insert")]:
    [None] stands for an argument the caller left out. *)
Definition __init__ (data : DataFrame) (status_null_value change_type_value : option string)
  : EdgeXJsonToPCDMTransformer :=
  {| data := data;
     status_null_value := default "Good"%string status_null_value;
     change_type_value := default "insert"%string change_type_value |}.

Definition pre_transform_validation (self : EdgeXJsonToPCDMTransformer) : bool := true.
Definition post_transform_validation (self : EdgeXJsonToPCDMTransformer) : bool := true.

Definition is_string (ty : DataType) : bool :=
  match ty with StringType => true | _ => false end.

Section Transform.

(** The engine's JSON parser at [EDGEX_SCHEMA]: [None] for a payload it
    cannot read. *)
Variable parse_json : string -> option EdgeXEvent.

(** What [from_json] makes of a cell of a string column. *)
Definition parsed (v : cell) : cell :=
  match v with
  | Str s => match parse_json s with Some e => Struct e | None => Null end
  | _ => Null
  end.

(** [from_json(c, EDGEX_SCHEMA)]: the engine takes a column of string type
    and no other. *)
Definition from_json (c : Column) : Column :=
  fun sch =>
    tf <- c sch ;;
    if is_string (fst tf) then Ok (EventStruct, fun row => parsed (snd tf row))
    else Raise (DataTypeMismatch "from_json" (fst tf)).

(** The session that owns [self.data] supplies [conf]. *)
Definition transform (conf : SQLConf) (self : EdgeXJsonToPCDMTransformer)
  : result AnalysisException DataFrame :=
  df <- withColumn conf "body" (from_json (col conf "body")) (data self) ;;
  df <- select_star_explode (getField (col conf "body") "readings") df ;;
  df <- selectExpr
          [ (getField (col conf "body") "deviceName", "TagName"%string);
            (lift1 TimestampType (to_utc_timestamp (current_timezone conf))
               (lift1 (timestamp_type conf) (to_timestamp conf)
                  (lift2 DoubleType divide (getField (col conf "col") "origin")
                     (lit (Long 1000000000)))),
             "EventTime"%string);
            (getField (col conf "col") "value", "Value"%string);
            (getField (col conf "col") "valueType", "ValueType"%string) ] df ;;
  df <- withColumn conf "Status" (lit (Str (status_null_value self))) df ;;
  df <- withColumn conf "ChangeType" (lit (Str (change_type_value self))) df ;;
  df <- withColumn conf "ValueType"
          (otherwise
             (and_when (and_when (and_when (and_when (and_when (and_when
              (and_when (and_when (and_when (and_when
                (when (eq_lit (col conf "ValueType") "Int8") "integer")
                (eq_lit (col conf "ValueType") "Int16") "integer")
                (eq_lit (col conf "ValueType") "Int32") "integer")
                (eq_lit (col conf "ValueType") "Int64") "integer")
                (eq_lit (col conf "ValueType") "Uint8") "integer")
                (eq_lit (col conf "ValueType") "Uint16") "integer")
                (eq_lit (col conf "ValueType") "Uint32") "integer")
                (eq_lit (col conf "ValueType") "Uint64") "integer")
                (eq_lit (col conf "ValueType") "Float32") "float")
                (eq_lit (col conf "ValueType") "Float64") "float")
                (eq_lit (col conf "ValueType") "Bool") "bool")
             "string") df ;;
  select conf ["TagName"; "EventTime"; "Status"; "Value"; "ValueType"; "ChangeType"]%string df.

End Transform.

(** *** Vocabulary of the statements *)

Definition pcdm_columns : list string :=
  ["TagName"; "EventTime"; "Status"; "Value"; "ValueType"; "ChangeType"].

Definition pcdm_schema : list (string * DataType) :=
  [("TagName", StringType); ("EventTime", TimestampType); ("Status", StringType);
   ("Value", StringType); ("ValueType", StringType); ("ChangeType", StringType)]%string.

Definition integer_tags : list string :=
  ["Int8"; "Int16"; "Int32"; "Int64"; "Uint8"; "Uint16"; "Uint32"; "Uint64"].
Definition float_tags : list string := ["Float32"; "Float64"].
Definition known_tags : list string := integer_tags ++ float_tags ++ ["Bool"%string].

Definition canonical_buckets : list cell :=
  [Str "integer"; Str "float"; Str "bool"; Str "string"].

(** The plan is accepted: [body] resolves to one column, the one at [i],
    this column is of string type, and no column of the input resolves to
    the generated [col]. *)
Definition analysable (conf : SQLConf) (df : DataFrame) (i : nat) : Prop :=
  resolve conf (columns df) "body" = Ok i /\
  nth i (dtypes df) NullType = StringType /\
  candidates conf "col" (columns df) 0 = [].

(** The readings a payload holds, each with its event, as the parsed
    records give them: none for a null, for a string the parser rejects and
    for an event whose readings are null. *)
Definition payload_readings (parse_json : string -> option EdgeXEvent) (v : cell)
  : list (EdgeXEvent * option Reading) :=
  match v with
  | Str s =>
      match parse_json s with
      | Some e =>
          match readings e with
          | Some rs => map (pair e) rs
          | None => []
          end
      | None => []
      end
  | _ => []
  end.

(** The readings of the input, row after row; [i] is where the payload
    column stands. *)
Definition input_readings (parse_json : string -> option EdgeXEvent) (i : nat)
    (df : DataFrame) : list (EdgeXEvent * option Reading) :=
  flat_map (fun row => payload_readings parse_json (nth i row Null)) (rows df).

Definition origin_of (r : option Reading) : option Z :=
  match r with Some x => origin x | None => None end.
Definition value_of (r : option Reading) : option string :=
  match r with Some x => value x | None => None end.
Definition tag_of (r : option Reading) : option string :=
  match r with Some x => valueType x | None => None end.

(** The seconds of an origin as a timestamp of the session, before the
    shift to UTC. *)
Definition local_time (conf : SQLConf) (o : option Z) : cell :=
  to_timestamp conf
    (divide (match o with Some n => Long n | None => Null end) (Long 1000000000)).

Definition event_time (conf : SQLConf) (o : option Z) : cell :=
  to_utc_timestamp (current_timezone conf) (local_time conf o).

Definition value_type_branches : list (string * string) :=
  [("Int8", "integer"); ("Int16", "integer"); ("Int32", "integer"); ("Int64", "integer");
   ("Uint8", "integer"); ("Uint16", "integer"); ("Uint32", "integer"); ("Uint64", "integer");
   ("Float32", "float"); ("Float64", "float"); ("Bool", "bool")]%string.

Definition tag_cases (k : nat) (branches : list (string * string))
  : list ((Row -> cell) * cell) :=
  map (fun b : string * string =>
         (fun row : Row => eq_string (fst b) (nth k row Null), Str (snd b)))
      branches.

(** The chain of [when]s and its [otherwise] on one value-type cell. *)
Definition bucket (v : cell) : cell :=
  case_when (tag_cases 0 value_type_branches) (Str "string") [v].

(** The output row of a reading. *)
Definition pcdm_row (conf : SQLConf) (self : EdgeXJsonToPCDMTransformer)
    (er : EdgeXEvent * option Reading) : Row :=
  [ of_string (deviceName (fst er)); event_time conf (origin_of (snd er));
    Str (status_null_value self); of_string (value_of (snd er));
    bucket (of_string (tag_of (snd er))); Str (change_type_value self) ].

(** The rows after the first three steps: one per exploded element. *)
Definition projected_rows (parse_json : string -> option EdgeXEvent) (conf : SQLConf)
    (i : nat) (rs : list Row) : list Row :=
  flat_map (fun row =>
              let body := parsed parse_json (nth i row Null) in
              map (fun x => [get_field "deviceName" body;
                             to_utc_timestamp (current_timezone conf)
                               (to_timestamp conf
                                  (divide (get_field "origin" x) (Long 1000000000)));
                             get_field "value" x; get_field "valueType" x])
                  (explode (get_field "readings" body)))
           rs.

(** What the value-type lookup promises of the output row [row] of the
    reading [er]. *)
Definition value_type_mapped (er : EdgeXEvent * option Reading) (row : Row) : Prop :=
  let tag := tag_of (snd er) in
  let out_type := nth 4 row Null in
  (forall t, In t integer_tags -> tag = Some t -> out_type = Str "integer") /\
  (forall t, In t float_tags -> tag = Some t -> out_type = Str "float") /\
  (tag = Some "Bool"%string -> out_type = Str "bool") /\
  ((forall t, In t known_tags -> tag <> Some t) -> out_type = Str "string") /\
  In out_type canonical_buckets.

(** The transformer [self] given other rows under the same schema. *)
Definition on_rows (self : EdgeXJsonToPCDMTransformer) (rs : list Row)
  : EdgeXJsonToPCDMTransformer :=
  {| data := {| schema := schema (data self); rows := rs |};
     status_null_value := status_null_value self;
     change_type_value := change_type_value self |}.

(** A payload cell of a string column that yields no reading: a null, a
    string the parser rejects, or an event whose readings are null or
    empty. *)
Definition unreadable (parse_json : string -> option EdgeXEvent) (v : cell) : Prop :=
  v = Null \/
  (exists s, v = Str s /\ parse_json s = None) \/
  (exists s e, v = Str s /\ parse_json s = Some e /\
               (readings e = None \/ readings e = Some [])).

(** *** Sample data *)

Definition sample_reading (tag : string) (ns : Z) : Reading :=
  {| origin := Some ns; value := Some "1"%string; valueType := Some tag |}.

Definition sample_event : EdgeXEvent :=
  {| deviceName := Some "pump"%string;
     readings := Some [Some (sample_reading "Int8" 1000000000);
                       Some (sample_reading "Float64" 2500000000);
                       Some (sample_reading "Colour" 0)] |}.

(** An event with a null entry among its readings and a reading that has
    no origin, no value and no value type. *)
Definition sparse_event : EdgeXEvent :=
  {| deviceName := Some "valve"%string;
     readings := Some [None; Some {| origin := None; value := None; valueType := None |}] |}.

(** A parser that knows two payloads, enough to run the pipeline. *)
Definition sample_parser (s : string) : option EdgeXEvent :=
  if String.eqb s "{pump}" then Some sample_event
  else if String.eqb s "{valve}" then Some sparse_event
  else None.

Definition sample_schema : list (string * DataType) :=
  [("partition", StringType); ("body", StringType); ("offset", LongType)]%string.

Definition sample_data : DataFrame :=
  {| schema := sample_schema;
     rows := [ [Str "0"; Str "{pump}"; Long 7];
               [Str "0"; Str "garbage"; Long 8];
               [Str "1"; Str "{valve}"; Long 9] ] |}.

Definition sample_conf (hours : Z) : SQLConf :=
  {| caseSensitive := false; sessionLocalTimeZone := fixed_offset hours;
     timestampType := TIMESTAMP_LTZ |}.

Definition ntz_conf : SQLConf :=
  {| caseSensitive := false; sessionLocalTimeZone := UTC;
     timestampType := TIMESTAMP_NTZ |}.

Definition sample_transformer : EdgeXJsonToPCDMTransformer :=
  __init__ sample_data None None.


(** An input with a column that collides with the generated [col]. *)
Definition clashing_data : DataFrame :=
  {| schema := [("body", StringType); ("col", StringType)]%string; rows := [] |}.

(** An input whose payload column is binary, as a dataset of the Eventhub
    source has it. *)
Definition binary_data : DataFrame :=
  {| schema := [("body", BinaryType)]%string; rows := [] |}.

(** An input that has the payload column of the sample and nothing else. *)
Definition payload_only_data : DataFrame :=
  {| schema := [("body", StringType)]%string;
     rows := [ [Str "{pump}"]; [Str "garbage"]; [Str "{valve}"] ] |}.

End EdgeXJsonToPCDM.

(** ** The Eventhub source: [eventhub.py] *)

Module Eventhub.

(** A raised exception object: its identity, class and message.  The source
    catches [Exception], the class of everything the external calls raise. *)
Record Exception := {
  exc_id : nat;
  exc_type : string;
  exc_message : string
}.

(** [spark.read] or [spark.readStream]. *)
Inductive ReadMode : Type := Batch | Streaming.

(** Dictionaries live in a store and are referred to by address: the
    caller's mapping and [self.options] are one object. *)
Definition loc : Type := nat.

Section Source.

(** The engine's dataset handles and the state of the world outside
    (the engine, the service). *)
Variables (DF X : Type).

(** What the session gives access to: the JVM's
    [EventHubsUtils.encrypt] and [format(...).options(...).load()] on a
    reader of either mode. *)
Record SparkSession := {
  jvm_encrypt : string -> result Exception string;
  load : ReadMode -> string -> gmap string string -> X -> result Exception DF * X
}.

Record SparkEventhubSource := {
  spark : SparkSession;
  options : loc
}.

Definition __init__ (spark : SparkSession) (options : loc) : SparkEventhubSource :=
  {| spark := spark; options := options |}.

Record World := {
  heap : gmap loc (gmap string string);
  outside : X
}.

(** What a call does that can be observed, in order. *)
Inductive Event : Type :=
| EncryptCall (arg : string) (r : result Exception string)
| SetItem (d : loc) (k v : string)
| LoadCall (m : ReadMode) (format : string) (opts : gmap string string)
    (r : result Exception DF)
| Print (s : string)
| LogException (msg : string) (e : Exception).

(** State, exceptions and the events so far. *)
Definition IO (A : Type) : Type := World -> result Exception A * World * list Event.

Definition ret {A} (a : A) : IO A := fun w => (Ok a, w, []).

Definition raise {A} (e : Exception) : IO A := fun w => (Raise e, w, []).

Definition io_bind {A B} (m : IO A) (k : A -> IO B) : IO B :=
  fun w =>
    match m w with
    | (Ok a, w1, t1) =>
        match k a w1 with
        | (r, w2, t2) => (r, w2, t1 ++ t2)
        end
    | (Raise e, w1, t1) => (Raise e, w1, t1)
    end.

(** [try: m except Exception as e: h e]. *)
Definition try_except {A} (m : IO A) (h : Exception -> IO A) : IO A :=
  fun w =>
    match m w with
    | (Ok a, w1, t1) => (Ok a, w1, t1)
    | (Raise e, w1, t1) =>
        match h e w1 with
        | (r, w2, t2) => (r, w2, t1 ++ t2)
        end
    end.

Definition read_dict (d : loc) : IO (gmap string string) :=
  fun w => (Ok (default ∅ (heap w !! d)), w, []).

(** [d[k] = v], in place. *)
Definition setitem (d : loc) (k v : string) : IO unit :=
  fun w =>
    (Ok tt,
     {| heap := <[d := <[k := v]> (default ∅ (heap w !! d))]> (heap w);
        outside := outside w |},
     [SetItem d k v]).

Definition call_encrypt (s : SparkSession) (arg : string) : IO string :=
  fun w => (jvm_encrypt s arg, w, [EncryptCall arg (jvm_encrypt s arg)]).

Definition call_load (s : SparkSession) (m : ReadMode) (format : string)
    (opts : gmap string string) : IO DF :=
  fun w =>
    match load s m format opts (outside w) with
    | (r, x) => (r, {| heap := heap w; outside := x |}, [LoadCall m format opts r])
    end.

Definition print (s : string) : IO unit := fun w => (Ok tt, w, [Print s]).

Definition logging_exception (msg : string) (e : Exception) : IO unit :=
  fun w => (Ok tt, w, [LogException msg e]).

Declare Scope io_scope.
Delimit Scope io_scope with io.
Notation "x <- m ;; k" := (io_bind m (fun x => k)) : io_scope.
Notation "m ;;; k" := (io_bind m (fun _ => k))
  (at level 100, right associativity) : io_scope.
Open Scope io_scope.

Definition read_batch (self : SparkEventhubSource) : IO DF :=
  let eventhub_connection_string := "eventhubs.connectionString"%string in
  try_except
    (opts <- read_dict (options self) ;;
     match opts !! eventhub_connection_string with
     | Some v =>
         enc <- call_encrypt (spark self) v ;;
         setitem (options self) eventhub_connection_string enc
     | None => ret tt
     end ;;;
     opts <- read_dict (options self) ;;
     call_load (spark self) Batch "eventhubs" opts)
    (fun e =>
       print (exc_message e) ;;;
       logging_exception "error with spark read batch eventhub function" e ;;;
       raise e).

Definition read_stream (self : SparkEventhubSource) : IO DF :=
  let eventhub_connection_string := "eventhubs.connectionString"%string in
  try_except
    (opts <- read_dict (options self) ;;
     match opts !! eventhub_connection_string with
     | Some v =>
         enc <- call_encrypt (spark self) v ;;
         setitem (options self) eventhub_connection_string enc
     | None => ret tt
     end ;;;
     opts <- read_dict (options self) ;;
     call_load (spark self) Streaming "eventhubs" opts)
    (fun e =>
       print (exc_message e) ;;;
       logging_exception "error with spark read stream eventhub function" e ;;;
       raise e).

Close Scope io_scope.

(** *** Vocabulary of the statements *)

Definition read (m : ReadMode) : SparkEventhubSource -> IO DF :=
  match m with Batch => read_batch | Streaming => read_stream end.

Definition connectionString : string := "eventhubs.connectionString".

Definition encrypt_calls (t : list Event) : list string :=
  flat_map (fun ev => match ev with EncryptCall a _ => [a] | _ => [] end) t.

Definition writes (t : list Event) : list (loc * string * string) :=
  flat_map (fun ev => match ev with SetItem d k v => [(d, k, v)] | _ => [] end) t.

Definition load_requests (t : list Event) : list (ReadMode * string * gmap string string) :=
  flat_map (fun ev => match ev with LoadCall m f o _ => [(m, f, o)] | _ => [] end) t.

Definition load_outcomes (t : list Event) : list (result Exception DF) :=
  flat_map (fun ev => match ev with LoadCall _ _ _ r => [r] | _ => [] end) t.

Definition log_message (m : ReadMode) : string :=
  match m with
  | Batch => "error with spark read batch eventhub function"
  | Streaming => "error with spark read stream eventhub function"
  end.

(** The other reader of the session, and the same exchange on events. *)
Definition other (m : ReadMode) : ReadMode :=
  match m with Batch => Streaming | Streaming => Batch end.

Definition swap_readers (s : SparkSession) : SparkSession :=
  {| jvm_encrypt := jvm_encrypt s; load := fun m => load s (other m) |}.

Definition relabel (ev : Event) : Event :=
  match ev with
  | LoadCall m f o r => LoadCall (other m) f o r
  | LogException msg e =>
      if String.eqb msg (log_message Batch) then LogException (log_message Streaming) e
      else if String.eqb msg (log_message Streaming) then LogException (log_message Batch) e
      else ev
  | _ => ev
  end.

(** The caller reads several times and carries on after a failure. *)
Fixpoint reads (ms : list ReadMode) (self : SparkEventhubSource) (w : World) : World :=
  match ms with
  | [] => w
  | m :: ms' => reads ms' self (snd (fst (read m self w)))
  end.

(** [n] applications of the encryption, each to the result of the last. *)
Fixpoint encrypt_n (s : SparkSession) (n : nat) (v : string) : result Exception string :=
  match n with
  | O => Ok v
  | S n' => bind (jvm_encrypt s v) (encrypt_n s n')
  end.

(** The load issued once the options are [opts], after the events [pre]. *)
Definition load_step (m : ReadMode) (self : SparkEventhubSource) (w : World) (opts : gmap string string) (pre : list Event)
  : result Exception DF * World * list Event :=
  match load (spark self) m "eventhubs" opts (outside w) with
  | (Ok df, x) =>
      (Ok df, {| heap := heap w; outside := x |},
       pre ++ [LoadCall m "eventhubs" opts (Ok df)])
  | (Raise e, x) =>
      (Raise e, {| heap := heap w; outside := x |},
       pre ++ [LoadCall m "eventhubs" opts (Raise e);
               Print (exc_message e); LogException (log_message m) e])
  end.

Definition stored (self : SparkEventhubSource) (w : World) : gmap string string := default ∅ (heap w !! options self).

(** The parts of an outcome. *)
Definition result_of (x : result Exception DF * World * list Event) := fst (fst x).
Definition world_of (x : result Exception DF * World * list Event) := snd (fst x).
Definition events_of (x : result Exception DF * World * list Event) := snd x.

End Source.

Arguments jvm_encrypt {DF X} s arg.
Arguments load {DF X} s m format opts x.
Arguments spark {DF X} s.
Arguments options {DF X} s.
Arguments heap {X} w.
Arguments outside {X} w.
Arguments EncryptCall {DF} arg r.
Arguments SetItem {DF} d k v.
Arguments LoadCall {DF} m format opts r.
Arguments Print {DF} s.
Arguments LogException {DF} msg e.
Arguments read_batch {DF X} self w.
Arguments read_stream {DF X} self w.
Arguments read {DF X} m self w.
Arguments encrypt_calls {DF} t.
Arguments writes {DF} t.
Arguments load_requests {DF} t.
Arguments load_outcomes {DF} t.
Arguments swap_readers {DF X} s.
Arguments relabel {DF} ev.
Arguments reads {DF X} ms self w.
Arguments encrypt_n {DF X} s n v.
Arguments load_step {DF X} m self w opts pre.
Arguments stored {DF X} self w.
Arguments result_of {DF X} x.
Arguments world_of {DF X} x.
Arguments events_of {DF X} x.

(** *** Sample session *)

Definition sample_failure : Exception :=
  {| exc_id := 41; exc_type := "Py4JJavaError"; exc_message := "no such event hub" |}.

(** Dataset handles are numbers; the outside state counts the loads; the
    encryption marks its argument; a batch load succeeds and a streaming
    load fails. *)
Definition sample_session : SparkSession nat nat :=
  {| jvm_encrypt := fun s => Ok (String.append "enc:" s);
     load := fun m _ _ n =>
               match m with
               | Batch => (Ok n, S n)
               | Streaming => (Raise sample_failure, S n)
               end |}.

Definition sample_options : gmap string string :=
  <[connectionString := "Endpoint=sb://x"%string]> (<["eventhubs.consumerGroup"%string := "$Default"%string]> ∅).

Definition sample_world : World nat :=
  {| heap := <[5%nat := sample_options]> ∅; outside := 0%nat |}.

Definition sample_source : SparkEventhubSource nat nat :=
  {| spark := sample_session; options := 5%nat |}.

(** A session whose encryption is not available. *)
Definition failing_session : SparkSession nat nat :=
  {| jvm_encrypt := fun _ => Raise sample_failure;
     load := fun _ _ _ n => (Ok n, S n) |}.

Definition failing_source : SparkEventhubSource nat nat :=
  {| spark := failing_session; options := 5%nat |}.

(** A session that cannot reach the event hub: every load raises. *)
Definition unreachable_session : SparkSession nat nat :=
  {| jvm_encrypt := fun s => Ok (String.append "enc:" s);
     load := fun _ _ _ n => (Raise sample_failure, S n) |}.

Definition unreachable_source : SparkEventhubSource nat nat :=
  {| spark := unreachable_session; options := 5%nat |}.

(** *** Further vocabulary *)

(** The mapping a read sends to the load when the stored mapping is [o]:
    [o] itself without the connection string, and [o] with the encrypted
    string in its place otherwise; no mapping when the encryption raises. *)
Definition options_sent {DF X : Type} (s : SparkSession DF X) (o : gmap string string)
  : result Exception (gmap string string) :=
  match o !! connectionString with
  | None => Ok o
  | Some v => bind (jvm_encrypt s v) (fun enc => Ok (<[connectionString := enc]> o))
  end.

Definition prints_and_logs {DF : Type} (t : list (Event DF)) : list (Event DF) :=
  List.filter (fun ev => match ev with Print _ | LogException _ _ => true | _ => false end) t.

End Eventhub.

(** ** The Auto Loader source *)

Module AutoLoader.

Inductive Failure : Type :=
| NotImplementedError (message : string).

Record DataBricksAutoLoaderSource := {
  options : gmap string string;
  path : string;
  format : string
}.

(** Modelled from the spec: [DataBricksAutoLoaderSource.read_batch]
    ([pipelines/sources/spark/autoloader.py]) is not among the sources; only
    its test is.  The spec has the one-shot read of an adapter that only
    supports continuous reads raise an operation-not-supported failure with
    the documented message, which the test spells out. *)
Definition read_batch {DF : Type} (self : DataBricksAutoLoaderSource) : result Failure DF :=
  Raise (NotImplementedError
    "Auto Loader only supports streaming reads. To perform a batch read, use the read_stream method and specify Trigger on the write_stream as `availableNow=True`").

(** [test_databricks_autoloader_read_batch]: [pytest.raises] with the
    class, then the comparison of [str(excinfo.value)]. *)
Definition test_databricks_autoloader_read_batch : bool :=
  let autoloader_source := {| options := ∅; path := "/path"; format := "parquet" |} in
  match @read_batch unit autoloader_source with
  | Raise (NotImplementedError message) =>
      String.eqb message
        "Auto Loader only supports streaming reads. To perform a batch read, use the read_stream method and specify Trigger on the write_stream as `availableNow=True`"
  | Ok _ => false
  end.

End AutoLoader.

(** * Properties *)

(** ** Name resolution *)

Module SparkFacts.
Import Spark.

Lemma resolver_refl conf a : resolver conf a a = true.
Proof. unfold resolver. destruct (caseSensitive conf); apply String.eqb_refl. Qed.

Lemma resolver_trans_r conf a b c :
  resolver conf a b = true -> resolver conf a c = resolver conf b c.
Proof.
  unfold resolver. destruct (caseSensitive conf); intros H;
    apply String.eqb_eq in H; now rewrite H.
Qed.

Lemma candidates_app conf name l1 l2 k :
  candidates conf name (l1 ++ l2) k =
  candidates conf name l1 k ++ candidates conf name l2 (k + length l1)%nat.
Proof.
  revert k. induction l1 as [|c l1 IH]; intros k; simpl.
  - now rewrite Nat.add_0_r.
  - rewrite IH, Nat.add_succ_r. now destruct (resolver conf c name).
Qed.

(** Renaming the columns that resolve to [name] changes no resolution. *)
Lemma candidates_rename conf name name' cols k :
  candidates conf name'
    (map (fun n => if resolver conf n name then name else n) cols) k =
  candidates conf name' cols k.
Proof.
  revert k. induction cols as [|c cols IH]; intros k; simpl; [reflexivity|].
  rewrite IH. destruct (resolver conf c name) eqn:E; [|reflexivity].
  now rewrite (resolver_trans_r conf c name name' E).
Qed.

Lemma candidates_nil conf name cols k :
  candidates conf name cols k = [] ->
  forall j, (j < length cols)%nat -> resolver conf (nth j cols ""%string) name = false.
Proof.
  revert k. induction cols as [|c cols IH]; intros k H j Hj; simpl in *; [lia|].
  destruct (resolver conf c name) eqn:E; [discriminate|].
  destruct j as [|j]; [exact E|]. apply (IH (S k) H). lia.
Qed.

Lemma candidates_unique conf name cols k i :
  candidates conf name cols k = [i] ->
  (k <= i < k + length cols)%nat /\
  forall j, (j < length cols)%nat ->
            resolver conf (nth j cols ""%string) name = Nat.eqb (k + j) i.
Proof.
  revert k. induction cols as [|c cols IH]; intros k H; simpl in *; [discriminate|].
  destruct (resolver conf c name) eqn:E.
  - injection H as -> Hnil. split; [lia|]. intros [|j] Hj.
    + rewrite Nat.add_0_r, Nat.eqb_refl. exact E.
    + rewrite (candidates_nil _ _ _ _ Hnil) by lia.
      symmetry. apply Nat.eqb_neq. lia.
  - destruct (IH _ H) as [Hi Hres]. split; [lia|]. intros [|j] Hj.
    + rewrite E. symmetry. apply Nat.eqb_neq. lia.
    + rewrite Hres by lia. f_equal. lia.
Qed.

Lemma nth_map_seq {A} (g : nat -> A) n i d :
  (i < n)%nat -> nth i (map g (seq 0 n)) d = g i.
Proof.
  intros H. rewrite (nth_indep _ d (g 0%nat)) by (now rewrite length_map, length_seq).
  rewrite (map_nth g (seq 0 n) 0%nat i). now rewrite seq_nth.
Qed.

Lemma length_star {A} (cols : list A) row : length (star cols row) = length cols.
Proof. unfold star. now rewrite length_map, length_seq. Qed.

Lemma nth_star {A} (cols : list A) row i :
  (i < length cols)%nat -> nth i (star cols row) Null = nth i row Null.
Proof.
  intros H. unfold star.
  exact (nth_map_seq (fun j => nth j row Null) _ _ _ H).
Qed.

End SparkFacts.

Module EdgeXFacts.
Import Spark EdgeXJsonToPCDM SparkFacts.

Lemma bind_Ok {E A B} (a : A) (k : A -> result E B) : bind (Ok a) k = k a.
Proof. reflexivity. Qed.

Lemma withColumn_append conf name (c : Column) df tf :
  existsb (fun n => resolver conf n name) (columns df) = false ->
  c (schema df) = Ok tf ->
  withColumn conf name c df =
  Ok {| schema := schema df ++ [(name, fst tf)];
        rows := map (fun row => star (schema df) row ++ [snd tf row]) (rows df) |}.
Proof. intros H1 H2. unfold withColumn. now rewrite H2, bind_Ok, H1. Qed.

Lemma withColumn_replace conf name (c : Column) df tf :
  existsb (fun n => resolver conf n name) (columns df) = true ->
  c (schema df) = Ok tf ->
  withColumn conf name c df =
  Ok {| schema := map (fun fld : string * DataType =>
                         if resolver conf (fst fld) name then (name, fst tf) else fld)
                      (schema df);
        rows := map (fun row =>
                       map (fun i => if resolver conf (nth i (columns df) "") name
                                     then snd tf row else nth i row Null)
                           (seq 0 (length (columns df))))
                    (rows df) |}.
Proof. intros H1 H2. unfold withColumn. now rewrite H2, bind_Ok, H1. Qed.

Lemma selectExpr_Ok exprs df tfs :
  mapM (fun e : Column * string => fst e (schema df)) exprs = Ok tfs ->
  selectExpr exprs df =
  Ok {| schema := combine (map snd exprs) (map fst tfs);
        rows := map (fun row => map (fun tf : DataType * (Row -> cell) => snd tf row) tfs)
                    (rows df) |}.
Proof. intros H. unfold selectExpr. now rewrite H. Qed.

Lemma df_eq {E} (a b : DataFrame) :
  schema a = schema b -> rows a = rows b -> @Ok E _ a = Ok b.
Proof. destruct a, b. cbn. now intros -> ->. Qed.

Ltac by_names :=
  match goal with
  | c : SQLConf |- _ => destruct c as [[|] ? ?]
  end; vm_compute; reflexivity.

Ltac eval_resolver :=
  repeat match goal with
         | |- context [resolver ?c ?a ?b] =>
             let v := eval vm_compute in (resolver c a b) in
             change (resolver c a b) with v
         end.

Section Facts.
Variable parse_json : string -> option EdgeXEvent.

Lemma case_when_at k branches d row :
  case_when (tag_cases k branches) d row =
  case_when (tag_cases 0 branches) d [nth k row Null].
Proof.
  induction branches as [|b bs IH]; simpl; [reflexivity|].
  now rewrite IH.
Qed.

(** The last four steps of [transform]. *)
Lemma tail_eq conf self rs :
  (df <- withColumn conf "Status" (lit (Str (status_null_value self)))
           {| schema := [("TagName", StringType); ("EventTime", TimestampType);
                         ("Value", StringType); ("ValueType", StringType)]%string;
              rows := rs |} ;;
  df <- withColumn conf "ChangeType" (lit (Str (change_type_value self))) df ;;
  df <- withColumn conf "ValueType"
          (otherwise
             (and_when (and_when (and_when (and_when (and_when (and_when
              (and_when (and_when (and_when (and_when
                (when (eq_lit (col conf "ValueType") "Int8") "integer")
                (eq_lit (col conf "ValueType") "Int16") "integer")
                (eq_lit (col conf "ValueType") "Int32") "integer")
                (eq_lit (col conf "ValueType") "Int64") "integer")
                (eq_lit (col conf "ValueType") "Uint8") "integer")
                (eq_lit (col conf "ValueType") "Uint16") "integer")
                (eq_lit (col conf "ValueType") "Uint32") "integer")
                (eq_lit (col conf "ValueType") "Uint64") "integer")
                (eq_lit (col conf "ValueType") "Float32") "float")
                (eq_lit (col conf "ValueType") "Float64") "float")
                (eq_lit (col conf "ValueType") "Bool") "bool")
             "string") df ;;
  select conf ["TagName"; "EventTime"; "Status"; "Value"; "ValueType"; "ChangeType"]%string df)
  = Ok {| schema := pcdm_schema;
          rows := map (fun row => [nth 0 row Null; nth 1 row Null; Str (status_null_value self);
                                   nth 2 row Null; bucket (nth 3 row Null);
                                   Str (change_type_value self)]) rs |}.
Proof.
  erewrite withColumn_append; [|by_names|reflexivity].
  rewrite bind_Ok. cbn [schema rows fst snd app].
  erewrite withColumn_append; [|by_names|reflexivity].
  rewrite bind_Ok. cbn [schema rows fst snd app].
  erewrite withColumn_replace; [|by_names|].
  2:{ cbn [schema rows].
      instantiate (1 := (StringType,
                         case_when (tag_cases 3 value_type_branches) (Str "string"))).
      destruct conf as [[|] tz tk]; lazy -[case_when eq_string nth]; reflexivity. }
  rewrite bind_Ok.
  unfold select. erewrite selectExpr_Ok.
  2:{ cbn [schema rows]. destruct conf as [[|] tz tk]; lazy -[nth]; reflexivity. }
  apply df_eq; cbn [schema rows].
  - destruct conf as [[|] tz tk];
      cbn [schema map fst snd combine app type_of]; eval_resolver; reflexivity.
  - rewrite !map_map. apply map_ext. intros row.
    destruct conf as [[|] tz tk];
      unfold columns; cbn [schema map seq length nth app star fst snd]; eval_resolver;
      cbn [map seq length nth app star fst snd]; rewrite case_when_at;
      unfold bucket; cbn [nth]; reflexivity.
Qed.

Lemma candidates_existsb conf name cols k i l :
  candidates conf name cols k = i :: l ->
  existsb (fun n => resolver conf n name) cols = true.
Proof.
  revert k. induction cols as [|c cols IH]; intros k H; simpl in *; [discriminate|].
  destruct (resolver conf c name); [reflexivity|]. simpl. now apply (IH (S k)).
Qed.

Lemma resolver_col_body conf : resolver conf "col" "body" = false.
Proof. destruct conf as [[|] ? ?]; vm_compute; reflexivity. Qed.

Lemma col_Ok conf sch name i :
  candidates conf name (map fst sch) 0 = [i] ->
  col conf name sch = Ok (nth i (map snd sch) NullType, fun row => nth i row Null).
Proof. intros H. unfold col, resolve. now rewrite H. Qed.

Lemma map_flat_map {A B C} (g : B -> C) (f : A -> list B) l :
  map g (flat_map f l) = flat_map (fun a => map g (f a)) l.
Proof.
  induction l as [|a l IH]; simpl; [reflexivity|].
  now rewrite map_app, IH.
Qed.

Lemma flat_map_of_map {A B C} (f : B -> list C) (g : A -> B) l :
  flat_map f (map g l) = flat_map (fun a => f (g a)) l.
Proof.
  induction l as [|a l IH]; simpl; [reflexivity|]. now rewrite IH.
Qed.

Lemma flat_map_ext' {A B} (f g : A -> list B) l :
  (forall a, f a = g a) -> flat_map f l = flat_map g l.
Proof.
  intros H. induction l as [|a l IH]; simpl; [reflexivity|]. now rewrite H, IH.
Qed.

Lemma nth_map_in {A B} (h : A -> B) l i d d' :
  (i < length l)%nat -> nth i (map h l) d' = h (nth i l d).
Proof.
  intros H. rewrite (nth_indep _ d' (h d)) by (now rewrite length_map).
  apply map_nth.
Qed.

(** The first three steps of [transform], followed by any continuation. *)
Lemma head_eq conf (df : DataFrame) {T} (k : DataFrame -> result AnalysisException T) :
  (df <- withColumn conf "body" (from_json parse_json (col conf "body")) df ;;
   df <- select_star_explode (getField (col conf "body") "readings") df ;;
   df <- selectExpr
          [ (getField (col conf "body") "deviceName", "TagName"%string);
            (lift1 TimestampType (to_utc_timestamp (current_timezone conf))
               (lift1 (timestamp_type conf) (to_timestamp conf)
                  (lift2 DoubleType divide (getField (col conf "col") "origin")
                     (lit (Long 1000000000)))),
             "EventTime"%string);
            (getField (col conf "col") "value", "Value"%string);
            (getField (col conf "col") "valueType", "ValueType"%string) ] df ;;
   k df) =
  match candidates conf "body" (columns df) 0 with
  | [] => Raise (UnresolvedColumn "body")
  | [i] =>
      if is_string (nth i (dtypes df) NullType) then
        match candidates conf "col" (columns df) 0 with
        | [] => k {| schema := [("TagName", StringType); ("EventTime", TimestampType);
                                ("Value", StringType); ("ValueType", StringType)]%string;
                     rows := projected_rows parse_json conf i (rows df) |}
        | _ => Raise (AmbiguousReference "col")
        end
      else Raise (DataTypeMismatch "from_json" (nth i (dtypes df) NullType))
  | _ => Raise (AmbiguousReference "body")
  end.
Proof.
  unfold dtypes, columns. set (sch := schema df). set (cols := map fst sch).
  unfold withColumn at 1. fold sch. unfold from_json at 1, col at 1, resolve at 1.
  fold cols. unfold columns. fold sch. fold cols.
  destruct (candidates conf "body" cols 0) as [|i [|i' l]] eqn:Hb;
    [reflexivity| |reflexivity].
  cbn [bind fst snd].
  destruct (is_string (nth i (map snd sch) NullType)) eqn:Hty; [|reflexivity].
  cbn [bind fst snd]. rewrite (candidates_existsb _ _ _ _ _ _ Hb). cbn [bind].
  destruct (candidates_unique _ _ _ _ _ Hb) as [Hi Hres].
  assert (Hlc : length cols = length sch) by (unfold cols; apply length_map).
  set (sch1 := map (fun fld : string * DataType =>
                      if resolver conf (fst fld) "body" then ("body"%string, EventStruct)
                      else fld) sch).
  assert (Hc1 : map fst sch1 =
                map (fun n : string => if resolver conf n "body" then "body"%string else n) cols).
  { unfold sch1, cols. rewrite !map_map. apply map_ext. intros [n ty]. cbn [fst].
    now destruct (resolver conf n "body"). }
  assert (Hb1 : candidates conf "body" (map fst sch1) 0 = [i]).
  { rewrite Hc1. now rewrite candidates_rename. }
  assert (Hlen : length sch1 = length sch) by (unfold sch1; apply length_map).
  assert (Hty1 : nth i (map snd sch1) NullType = EventStruct).
  { unfold sch1. rewrite map_map.
    rewrite (nth_map_in _ sch i (""%string, NullType)) by lia.
    replace (fst (nth i sch (""%string, NullType))) with (nth i cols ""%string)
      by (unfold cols; apply (map_nth fst sch (""%string, NullType))).
    rewrite Hres by lia. now rewrite Nat.eqb_refl. }
  unfold select_star_explode. cbn [schema rows].
  unfold getField at 1. rewrite (col_Ok _ _ _ _ Hb1). cbn [bind fst snd].
  rewrite Hty1. cbn [field_type String.eqb Ascii.eqb Bool.eqb is_array bind fst snd].
  assert (Hb2 : candidates conf "body" (map fst (sch1 ++ [("col"%string, ReadingStruct)])) 0
                = [i]).
  { rewrite map_app, candidates_app, Hb1. simpl. now rewrite resolver_col_body. }
  assert (Hc2 : candidates conf "col" (map fst (sch1 ++ [("col"%string, ReadingStruct)])) 0 =
                candidates conf "col" cols 0 ++ [length cols]).
  { rewrite map_app, candidates_app, Hc1, candidates_rename.
    simpl. now rewrite resolver_refl, length_map. }
  assert (Hty2 : nth i (map snd (sch1 ++ [("col"%string, ReadingStruct)])) NullType
                 = EventStruct).
  { rewrite map_app, app_nth1 by (rewrite length_map; lia). exact Hty1. }
  assert (Hty3 : nth (length cols) (map snd (sch1 ++ [("col"%string, ReadingStruct)])) NullType
                 = ReadingStruct).
  { rewrite map_app, app_nth2 by (rewrite length_map; lia).
    rewrite length_map, Hlen, Hlc, Nat.sub_diag. reflexivity. }
  unfold selectExpr at 1. cbn [schema rows mapM fst snd].
  unfold getField, lift1, lift2, lit.
  rewrite (col_Ok _ _ _ _ Hb2). cbn [bind fst snd]. rewrite Hty2.
  cbn [field_type String.eqb Ascii.eqb Bool.eqb bind fst snd].
  unfold col, resolve. rewrite Hc2.
  destruct (candidates conf "col" cols 0) as [|c l] eqn:Hc.
  2:{ destruct l; reflexivity. }
  cbn [app bind fst snd]. rewrite Hty3.
  cbn [field_type String.eqb Ascii.eqb Bool.eqb bind fst snd map combine type_of].
  f_equal. f_equal.
  unfold projected_rows.
  rewrite map_flat_map, flat_map_of_map. apply flat_map_ext'. intros row.
  assert (Hbody : nth i (map (fun i0 : nat =>
                     if resolver conf (nth i0 cols ""%string) "body"
                     then parsed parse_json (nth i row Null) else nth i0 row Null)
                    (seq 0 (length cols))) Null = parsed parse_json (nth i row Null)).
  { rewrite nth_map_seq by lia. rewrite Hres by lia. now rewrite Nat.eqb_refl. }
  rewrite Hbody. cbn zeta. rewrite map_map. apply map_ext. intros x.
  rewrite app_nth1 by (rewrite length_star; lia).
  rewrite nth_star by lia. rewrite Hbody.
  rewrite app_nth2 by (rewrite length_star; lia).
  rewrite length_star, Hlen, <- Hlc, Nat.sub_diag. reflexivity.
Qed.

(** The rows of a payload as the pipeline makes them are the rows of its
    readings as the parsed records give them. *)
Lemma payload_rows conf self v :
  map (fun r : Row => [nth 0 r Null; nth 1 r Null; Str (status_null_value self);
                       nth 2 r Null; bucket (nth 3 r Null); Str (change_type_value self)])
      (map (fun x => [get_field "deviceName" (parsed parse_json v);
                      to_utc_timestamp (current_timezone conf)
                        (to_timestamp conf (divide (get_field "origin" x) (Long 1000000000)));
                      get_field "value" x; get_field "valueType" x])
           (explode (get_field "readings" (parsed parse_json v)))) =
  map (pcdm_row conf self) (payload_readings parse_json v).
Proof.
  unfold payload_readings, parsed.
  destruct v as [|s| | | | | | |]; try reflexivity.
  destruct (parse_json s) as [e|]; [|reflexivity].
  cbn [get_field String.eqb Ascii.eqb Bool.eqb].
  destruct (readings e) as [rs|]; [|reflexivity].
  cbn [explode]. rewrite !map_map. apply map_ext. intros [r|]; reflexivity.
Qed.

Lemma transform_eq conf self :
  transform parse_json conf self =
  match candidates conf "body" (columns (data self)) 0 with
  | [] => Raise (UnresolvedColumn "body")
  | [i] =>
      if is_string (nth i (dtypes (data self)) NullType) then
        match candidates conf "col" (columns (data self)) 0 with
        | [] => Ok {| schema := pcdm_schema;
                      rows := map (pcdm_row conf self)
                                  (input_readings parse_json i (data self)) |}
        | _ => Raise (AmbiguousReference "col")
        end
      else Raise (DataTypeMismatch "from_json" (nth i (dtypes (data self)) NullType))
  | _ => Raise (AmbiguousReference "body")
  end.
Proof.
  unfold transform.
  match goal with
  | |- bind _ (fun _ => bind _ (fun _ => bind _ ?k)) = _ =>
      rewrite (head_eq conf (data self) k)
  end.
  destruct (candidates conf "body" (columns (data self)) 0) as [|i [|i' l]];
    [reflexivity| |reflexivity].
  destruct (is_string _); [|reflexivity].
  destruct (candidates conf "col" (columns (data self)) 0); [|reflexivity].
  rewrite tail_eq. f_equal. f_equal.
  unfold projected_rows, input_readings. rewrite !map_flat_map.
  apply flat_map_ext'. intros row. cbn zeta. apply payload_rows.
Qed.

Lemma resolve_Ok conf cols name i :
  resolve conf cols name = Ok i -> candidates conf name cols 0 = [i].
Proof.
  unfold resolve. destruct (candidates conf name cols 0) as [|j [|j' l]];
    intros H; try discriminate. now injection H as ->.
Qed.

Lemma transform_analysable conf self i :
  analysable conf (data self) i ->
  transform parse_json conf self =
  Ok {| schema := pcdm_schema;
        rows := map (pcdm_row conf self) (input_readings parse_json i (data self)) |}.
Proof.
  intros (Hb & Hty & Hc). rewrite transform_eq, (resolve_Ok _ _ _ _ Hb), Hty, Hc.
  reflexivity.
Qed.

Lemma Forall2_map_self {A B} (P : A -> B -> Prop) (f : A -> B) l :
  (forall a, P a (f a)) -> Forall2 P l (map f l).
Proof. intros H. induction l; simpl; constructor; auto. Qed.

(** *** The value-type lookup *)

Lemma case_when_none branches d v :
  (forall b, In b branches -> v <> Str (fst b)) ->
  case_when (tag_cases 0 branches) d [v] = d.
Proof.
  induction branches as [|b bs IH]; intros H; simpl; [reflexivity|].
  rewrite IH by (intros b' Hb'; apply H; now right).
  destruct v; simpl; try reflexivity.
  destruct (String.eqb s (fst b)) eqn:E; [|reflexivity].
  apply String.eqb_eq in E. subst. exfalso. apply (H b); [now left|reflexivity].
Qed.

Lemma case_when_in branches d row k :
  In (case_when (tag_cases k branches) d row)
     (d :: map (fun b : string * string => Str (snd b)) branches).
Proof.
  induction branches as [|b bs IH]; simpl; [now left|].
  destruct (eq_string (fst b) (nth k row Null)) as [| |[|]| | | | | |];
    try (destruct IH as [IH|IH]; [now left|now right; right]).
  right; now left.
Qed.

Lemma bucket_integer t : In t integer_tags -> bucket (Str t) = Str "integer".
Proof.
  unfold integer_tags. cbn [In].
  intros H; repeat destruct H as [<-|H]; try contradiction; vm_compute; reflexivity.
Qed.

Lemma bucket_float t : In t float_tags -> bucket (Str t) = Str "float".
Proof.
  unfold float_tags. cbn [In].
  intros H; repeat destruct H as [<-|H]; try contradiction; vm_compute; reflexivity.
Qed.

Lemma bucket_bool : bucket (Str "Bool") = Str "bool".
Proof. vm_compute; reflexivity. Qed.

Lemma bucket_other v :
  (forall t, In t known_tags -> v <> Str t) -> bucket v = Str "string".
Proof.
  intros H. unfold bucket. apply case_when_none. intros b Hb. apply H.
  change known_tags with (map fst value_type_branches). now apply in_map.
Qed.

Lemma bucket_canonical v : In (bucket v) canonical_buckets.
Proof.
  assert (H : In (bucket v)
                 (Str "string" :: map (fun b : string * string => Str (snd b))
                                      value_type_branches))
    by (unfold bucket; apply case_when_in).
  revert H. generalize (bucket v). intros c.
  unfold canonical_buckets, value_type_branches. cbn [In map snd].
  intros H; repeat destruct H as [<-|H]; try contradiction; auto 10.
Qed.



End Facts.
End EdgeXFacts.

Module EdgeXClaims.
Import Spark EdgeXJsonToPCDM SparkFacts EdgeXFacts.

Section Claims.
Variable parse_json : string -> option EdgeXEvent.

(** C1. For every reading of the input, the output row carries the bucket
    of the reading's value-type tag: the eight integer tags give "integer",
    the two float tags "float", "Bool" gives "bool", and any other tag (a
    null one too) gives "string"; the bucket is always one of the four, and
    no tag makes the transform fail. *)
Theorem value_type_lookup conf self i :
  analysable conf (data self) i ->
  exists out,
    transform parse_json conf self = Ok out /\
    nth 4 (columns out) ""%string = "ValueType"%string /\
    Forall2 value_type_mapped (input_readings parse_json i (data self)) (rows out).
Proof.
  intros H. eexists. split; [apply (transform_analysable _ _ _ _ H)|].
  split; [reflexivity|]. cbn [rows].
  apply Forall2_map_self. intros [e r].
  unfold value_type_mapped, pcdm_row. cbn [fst snd nth].
  repeat split.
  - intros t Ht ->. now apply bucket_integer.
  - intros t Ht ->. now apply bucket_float.
  - intros ->. apply bucket_bool.
  - intros Hno. apply bucket_other. intros t Ht.
    destruct (tag_of r) as [s|] eqn:E; cbn [of_string]; [|discriminate].
    intros [= ->]. now apply (Hno t Ht).
  - apply bucket_canonical.
Qed.

(** C2, as amended. Whenever the plan is accepted (one column resolves to
    [body], it is of string type, none resolves to [col]), whatever other
    columns the input carries, the output has exactly the six columns
    TagName, EventTime, Status, Value, ValueType, ChangeType, in this
    order. *)
Theorem output_columns conf self i :
  analysable conf (data self) i ->
  exists out,
    transform parse_json conf self = Ok out /\
    columns out = ["TagName"; "EventTime"; "Status"; "Value"; "ValueType"; "ChangeType"]%string /\
    length (columns out) = 6%nat.
Proof.
  intros H. eexists. split; [apply (transform_analysable _ _ _ _ H)|].
  split; reflexivity.
Qed.

(** C4. Every reading of the input gives an output row that holds the
    configured [status_null_value] in Status and the configured
    [change_type_value] in ChangeType; the constructor stores what it is
    given and falls back on "Good" and "insert". *)
Theorem status_and_change_type conf self i :
  analysable conf (data self) i ->
  exists out,
    transform parse_json conf self = Ok out /\
    nth 2 (columns out) ""%string = "Status"%string /\
    nth 5 (columns out) ""%string = "ChangeType"%string /\
    Forall2 (fun (_ : EdgeXEvent * option Reading) (row : Row) =>
               nth 2 row Null = Str (status_null_value self) /\
               nth 5 row Null = Str (change_type_value self))
            (input_readings parse_json i (data self)) (rows out) /\
    (forall d, status_null_value (__init__ d None None) = "Good"%string /\
               change_type_value (__init__ d None None) = "insert"%string) /\
    (forall d s c, status_null_value (__init__ d (Some s) (Some c)) = s /\
                   change_type_value (__init__ d (Some s) (Some c)) = c).
Proof.
  intros H. eexists. split; [apply (transform_analysable _ _ _ _ H)|].
  split; [reflexivity|]. split; [reflexivity|]. split.
  - cbn [rows]. apply Forall2_map_self. intros er. split; reflexivity.
  - split; intros; split; reflexivity.
Qed.



End Claims.

(** *** The theorems on the sample data *)

Lemma sample_analysable hours : analysable (sample_conf hours) (data sample_transformer) 1.
Proof. repeat split; vm_compute; reflexivity. Qed.

Lemma value_type_lookup_witness :
  analysable (sample_conf 0) (data sample_transformer) 1 /\
  exists out,
    transform sample_parser (sample_conf 0) sample_transformer = Ok out /\
    nth 4 (columns out) ""%string = "ValueType"%string /\
    Forall2 value_type_mapped (input_readings sample_parser 1 (data sample_transformer))
            (rows out).
Proof.
  assert (H : analysable (sample_conf 0) (data sample_transformer) 1)
    by (repeat split; vm_compute; reflexivity).
  exact (conj H (value_type_lookup sample_parser (sample_conf 0) sample_transformer 1%nat H)).
Defined.

Lemma output_columns_witness :
  analysable (sample_conf 0) (data sample_transformer) 1 /\
  exists out,
    transform sample_parser (sample_conf 0) sample_transformer = Ok out /\
    columns out = ["TagName"; "EventTime"; "Status"; "Value"; "ValueType"; "ChangeType"]%string /\
    length (columns out) = 6%nat.
Proof.
  assert (H : analysable (sample_conf 0) (data sample_transformer) 1)
    by (repeat split; vm_compute; reflexivity).
  exact (conj H (output_columns sample_parser (sample_conf 0) sample_transformer 1%nat H)).
Defined.

(** The claim of five columns, on the sample: the output has six.  And not
    every input gives an output: one with a column named [col], or with a
    payload column that is not of string type, is rejected. *)
Lemma five_columns_counterexample :
  (exists out,
     transform sample_parser (sample_conf 0) sample_transformer = Ok out /\
     length (columns out) = 6%nat /\ length (columns out) <> 5%nat) /\
  transform sample_parser (sample_conf 0) (__init__ clashing_data None None) =
    Raise (AmbiguousReference "col") /\
  transform sample_parser (sample_conf 0) (__init__ binary_data None None) =
    Raise (DataTypeMismatch "from_json" BinaryType).
Proof.
  split; [|split; vm_compute; reflexivity].
  eexists. split; [vm_compute; reflexivity|]. split; [reflexivity|discriminate].
Qed.

(** C3. The code on a reading whose origin is 1_000_000_000 ns: in a UTC
    session the event time is one second after the epoch; in a session one
    hour east of UTC it is 3599 seconds before the epoch, another instant;
    in a session whose timestamp type is TIMESTAMP_NTZ it is null. *)
Theorem event_time_depends_on_session :
  nth_error (input_readings sample_parser 1 (data sample_transformer)) 0 =
    Some (sample_event, Some (sample_reading "Int8" 1000000000)) /\
  (exists out row,
     transform sample_parser (sample_conf 0) sample_transformer = Ok out /\
     nth_error (rows out) 0 = Some row /\ nth 1 row Null = Timestamp 1000000) /\
  (exists out row,
     transform sample_parser (sample_conf 1) sample_transformer = Ok out /\
     nth_error (rows out) 0 = Some row /\ nth 1 row Null = Timestamp (-3599000000) /\
     nth 1 row Null <> Timestamp 1000000) /\
  (exists out row,
     transform sample_parser ntz_conf sample_transformer = Ok out /\
     nth_error (rows out) 0 = Some row /\ nth 1 row Null = Null).
Proof.
  split; [vm_compute; reflexivity|]. split; [|split].
  - do 2 eexists. split; [vm_compute; reflexivity|]. split; reflexivity.
  - do 2 eexists. split; [vm_compute; reflexivity|].
    split; [reflexivity|]. split; [reflexivity|discriminate].
  - do 2 eexists. split; [vm_compute; reflexivity|]. split; reflexivity.
Qed.

Lemma status_and_change_type_witness :
  analysable (sample_conf 0) (data sample_transformer) 1 /\
  length (input_readings sample_parser 1 (data sample_transformer)) = 5%nat /\
  exists out,
    transform sample_parser (sample_conf 0) sample_transformer = Ok out /\
    Forall2 (fun (_ : EdgeXEvent * option Reading) (row : Row) =>
               nth 2 row Null = Str "Good" /\ nth 5 row Null = Str "insert")
            (input_readings sample_parser 1 (data sample_transformer)) (rows out).
Proof.
  assert (H : analysable (sample_conf 0) (data sample_transformer) 1)
    by (repeat split; vm_compute; reflexivity).
  split; [exact H|]. split; [vm_compute; reflexivity|].
  destruct (status_and_change_type sample_parser (sample_conf 0) sample_transformer 1%nat H)
    as (out & Hout & _ & _ & Hrows & _).
  exists out. split; [exact Hout|exact Hrows].
Defined.



End EdgeXClaims.
Module EventhubFacts.
Import Eventhub.

Section Facts.
Variables (DF X : Type).
Implicit Types (self : SparkEventhubSource DF X) (w : World X) (m : ReadMode).

Lemma read_eq m self w :
  read m self w =
  match stored self w !! connectionString with
  | None => load_step m self w (stored self w) []
  | Some v =>
      match jvm_encrypt (spark self) v with
      | Ok enc =>
          load_step m self
            {| heap := <[options self := <[connectionString := enc]> (stored self w)]> (heap w);
               outside := outside w |}
            (<[connectionString := enc]> (stored self w))
            [EncryptCall v (Ok enc); SetItem (options self) connectionString enc]
      | Raise e =>
          (Raise e, w,
           [EncryptCall v (Raise e); Print (exc_message e); LogException (log_message m) e])
      end
  end.
Proof.
  unfold stored, load_step.
  destruct m; unfold read, read_batch, read_stream, try_except, io_bind, read_dict,
    call_encrypt, setitem, call_load, print, logging_exception, raise, ret, connectionString;
    cbn [heap outside fst snd log_message].
  all: destruct (default ∅ (heap w !! options self) !! "eventhubs.connectionString"%string)
         as [v|] eqn:Hk.
  all: try (destruct (jvm_encrypt (spark self) v) as [enc|e] eqn:He).
  all: cbn [heap outside app].
  all: try rewrite lookup_insert_eq; cbn [default].
  all: try (destruct (load _ _ _ _ _) as [[df|e'] x]; cbn [app]; destruct w; reflexivity).
  all: try (destruct w; reflexivity).
Qed.

Lemma stored_Some self w o : heap w !! options self = Some o -> stored self w = o.
Proof. intros H. unfold stored. now rewrite H. Qed.

Lemma load_step_heap m self w opts pre :
  heap (world_of (load_step m self w opts pre)) = heap w.
Proof. unfold load_step. destruct (load _ _ _ _ _) as [[df|e] x]; reflexivity. Qed.

Lemma load_step_requests m self w opts pre :
  load_requests (events_of (load_step m self w opts pre)) =
  load_requests pre ++ [(m, "eventhubs"%string, opts)].
Proof.
  unfold load_step, load_requests.
  destruct (load _ _ _ _ _) as [[df|e] x]; cbn [events_of snd];
    rewrite flat_map_app; reflexivity.
Qed.

Lemma load_step_encrypt_calls m self w opts pre :
  encrypt_calls (events_of (load_step m self w opts pre)) = encrypt_calls pre.
Proof.
  unfold load_step, encrypt_calls.
  destruct (load _ _ _ _ _) as [[df|e] x]; cbn [events_of snd];
    rewrite flat_map_app; cbn; apply app_nil_r.
Qed.

Lemma load_step_writes m self w opts pre :
  writes (events_of (load_step m self w opts pre)) = writes pre.
Proof.
  unfold load_step, writes.
  destruct (load _ _ _ _ _) as [[df|e] x]; cbn [events_of snd];
    rewrite flat_map_app; cbn; apply app_nil_r.
Qed.

End Facts.

End EventhubFacts.

Module EventhubClaims.
Import Eventhub EventhubFacts.

Section Claims.
Variables (DF X : Type).
Implicit Types (self : SparkEventhubSource DF X) (w : World X) (m : ReadMode).

(** C5. A read calls the encryption, and stores its result under the
    connection-string key of the shared mapping, exactly when the key is
    present; when it is absent there is no encryption call, no write, and
    the load receives the mapping as it was. *)
Theorem connection_string_prestep m self w o :
  heap w !! options self = Some o ->
  let t := events_of (read m self w) in
  let w' := world_of (read m self w) in
  (encrypt_calls t <> [] <-> is_Some (o !! connectionString)) /\
  (writes t <> [] -> is_Some (o !! connectionString)) /\
  (o !! connectionString = None ->
     encrypt_calls t = [] /\ writes t = [] /\
     load_requests t = [(m, "eventhubs"%string, o)] /\ heap w' = heap w) /\
  (forall v, o !! connectionString = Some v ->
     encrypt_calls t = [v] /\
     forall enc, jvm_encrypt (spark self) v = Ok enc ->
       writes t = [(options self, connectionString, enc)] /\
       heap w' = <[options self := <[connectionString := enc]> o]> (heap w) /\
       load_requests t = [(m, "eventhubs"%string, <[connectionString := enc]> o)]).
Proof.
  intros Ho t w'. subst t w'. rewrite read_eq, (stored_Some _ _ _ _ _ Ho).
  destruct (o !! connectionString) as [v|] eqn:Hk.
  - destruct (jvm_encrypt (spark self) v) as [enc|e] eqn:He.
    + rewrite load_step_encrypt_calls, load_step_writes, load_step_requests, load_step_heap.
      cbn [encrypt_calls writes load_requests flat_map app heap].
      split; [split; [intros _; eauto | intros _; discriminate] |].
      split; [intros _; eauto|]. split; [discriminate|].
      intros v0 [= <-]. split; [reflexivity|].
      intros enc0 He0. rewrite He in He0. injection He0 as <-. auto.
    + cbn [events_of world_of fst snd encrypt_calls writes load_requests flat_map app].
      split; [split; [intros _; eauto | intros _; discriminate] |].
      split; [intros _; eauto|]. split; [discriminate|].
      intros v0 [= <-]. split; [reflexivity|].
      intros enc0 He0. rewrite He in He0. discriminate.
  - rewrite load_step_encrypt_calls, load_step_writes, load_step_requests, load_step_heap.
    cbn [encrypt_calls writes load_requests flat_map app].
    split; [split; [intros H; now destruct H | intros [x Hx]; discriminate] |].
    split; [intros H; now destruct H|]. split; [auto|].
    intros v0 Hv. discriminate.
Qed.

(** C6. When the load a read issues raises, the read raises that very
    exception: the result of the call is the exception the session's load
    gave, after that one load and no other, a print of its message and one
    log record with the method's text, and no dataset is returned. *)
Theorem load_exception_reraised m self w o opts e x :
  heap w !! options self = Some o ->
  options_sent (spark self) o = Ok opts ->
  load (spark self) m "eventhubs" opts (outside w) = (Raise e, x) ->
  let t := events_of (read m self w) in
  result_of (read m self w) = Raise e /\
  load_requests t = [(m, "eventhubs"%string, opts)] /\
  load_outcomes t = [Raise e] /\
  prints_and_logs t = [Print (exc_message e); LogException (log_message m) e] /\
  (exists pre, t = pre ++ [LoadCall m "eventhubs" opts (Raise e); Print (exc_message e);
                           LogException (log_message m) e]) /\
  outside (world_of (read m self w)) = x.
Proof.
  intros Ho Hs Hl t. subst t. rewrite read_eq, (stored_Some _ _ _ _ _ Ho).
  unfold options_sent in Hs.
  destruct (o !! connectionString) as [v|].
  - destruct (jvm_encrypt (spark self) v) as [enc|e0]; [|discriminate].
    cbn [bind] in Hs. injection Hs as <-.
    unfold load_step. cbn [outside]. rewrite Hl.
    cbn [result_of events_of world_of fst snd outside app].
    repeat split.
    exists [EncryptCall v (Ok enc); SetItem (options self) connectionString enc].
    reflexivity.
  - injection Hs as <-. unfold load_step. rewrite Hl.
    cbn [result_of events_of world_of fst snd outside app].
    repeat split. now exists [].
Qed.

Lemma relabel_batch_log e :
  relabel (DF := DF) (LogException (log_message Batch) e) = LogException (log_message Streaming) e.
Proof. reflexivity. Qed.

Lemma read_relabel (s1 s2 : SparkSession DF X) (l : loc) w :
  jvm_encrypt s1 = jvm_encrypt s2 ->
  (forall f o x, load s1 Streaming f o x = load s2 Batch f o x) ->
  read Streaming {| spark := s1; options := l |} w =
  (result_of (read Batch {| spark := s2; options := l |} w),
   world_of (read Batch {| spark := s2; options := l |} w),
   map relabel (events_of (read Batch {| spark := s2; options := l |} w))).
Proof.
  intros He Hl. rewrite !read_eq. unfold stored. cbn [spark options].
  rewrite He. unfold load_step. cbn [spark].
  destruct (default ∅ (heap w !! l) !! connectionString) as [v|].
  - destruct (jvm_encrypt s2 v) as [enc|e].
    + cbn [outside]. rewrite Hl.
      destruct (load s2 Batch _ _ _) as [[df|e] x]; reflexivity.
    + reflexivity.
  - rewrite Hl. destruct (load s2 Batch _ _ _) as [[df|e] x]; reflexivity.
Qed.

(** C7. [read_stream] is [read_batch] with the streaming reader in the
    place of the batch reader: run against a session whose two readers are
    exchanged, [read_batch] gives the same result and the same final state,
    and the same events once the reader (and the method named in the log
    record) is relabelled.  On one session the two methods leave the same
    mapping behind, make the same encryption calls and writes and send the
    same format and options to the load; where the two readers answer
    alike, the results are the same. *)
Theorem read_stream_as_read_batch self w :
  let swapped := {| spark := swap_readers (spark self); options := options self |} in
  read_stream self w =
    (result_of (read_batch swapped w), world_of (read_batch swapped w),
     map relabel (events_of (read_batch swapped w))) /\
  heap (world_of (read_stream self w)) = heap (world_of (read_batch self w)) /\
  encrypt_calls (events_of (read_stream self w)) =
    encrypt_calls (events_of (read_batch self w)) /\
  writes (events_of (read_stream self w)) = writes (events_of (read_batch self w)) /\
  map snd (load_requests (events_of (read_stream self w))) =
    map snd (load_requests (events_of (read_batch self w))) /\
  map (fun q => fst (fst q)) (load_requests (events_of (read_stream self w))) =
    map (fun _ => Streaming) (load_requests (events_of (read_batch self w))) /\
  ((forall f o x, load (spark self) Streaming f o x = load (spark self) Batch f o x) ->
   result_of (read_stream self w) = result_of (read_batch self w) /\
   world_of (read_stream self w) = world_of (read_batch self w) /\
   events_of (read_stream self w) = map relabel (events_of (read_batch self w))).
Proof.
  intros swapped. subst swapped. destruct self as [s l]. cbn [spark options].
  split.
  { apply (read_relabel s (swap_readers s) l w); reflexivity. }
  change (read_stream {| spark := s; options := l |} w)
    with (read Streaming {| spark := s; options := l |} w).
  change (read_batch {| spark := s; options := l |} w)
    with (read Batch {| spark := s; options := l |} w).
  split; [|split; [|split; [|split; [|split]]]].
  6:{ intros Hl. rewrite (read_relabel s s l w eq_refl Hl). auto. }
  all: rewrite !read_eq; cbn [spark options].
  all: destruct (stored _ w !! connectionString) as [v|];
       [destruct (jvm_encrypt s v) as [enc|e]|].
  all: rewrite ?load_step_heap, ?load_step_encrypt_calls, ?load_step_writes,
         ?load_step_requests; reflexivity.
Qed.

(** C10. The encryption compounds: with the key present, each read
    encrypts the value the last one left, so after the reads [ms], whatever
    their loads did, the stored value is the [length ms]-fold encryption of
    the original; a [read_batch] followed by a [read_stream] stores the
    encryption of the encryption. *)
Theorem encryption_compounds (ms : list ReadMode) self w o v vn :
  heap w !! options self = Some o ->
  o !! connectionString = Some v ->
  encrypt_n (spark self) (length ms) v = Ok vn ->
  heap (reads ms self w) !! options self = Some (<[connectionString := vn]> o) /\
  (ms = [Batch; Streaming] ->
   exists v1, jvm_encrypt (spark self) v = Ok v1 /\ jvm_encrypt (spark self) v1 = Ok vn).
Proof.
  intros Ho Hk Hn. split.
  - revert w o v Ho Hk Hn. induction ms as [|m ms IH]; intros w o v Ho Hk Hn.
    + cbn in Hn. injection Hn as <-. cbn [reads]. rewrite Ho. f_equal.
      symmetry. now apply insert_id.
    + cbn [length encrypt_n] in Hn.
      destruct (jvm_encrypt (spark self) v) as [v1|e] eqn:He; [|discriminate].
      cbn [bind] in Hn. cbn [reads].
      assert (Hw : heap (snd (fst (read m self w))) =
                   <[options self := <[connectionString := v1]> o]> (heap w)).
      { rewrite read_eq, (stored_Some _ _ _ _ _ Ho), Hk, He.
        apply (load_step_heap DF X). }
      rewrite (IH _ (<[connectionString := v1]> o) v1).
      * f_equal. apply insert_insert_eq.
      * rewrite Hw. apply lookup_insert_eq.
      * apply lookup_insert_eq.
      * exact Hn.
  - intros ->. cbn [length encrypt_n] in Hn.
    destruct (jvm_encrypt (spark self) v) as [v1|e]; [|discriminate].
    cbn [bind] in Hn. exists v1. split; [reflexivity|].
    destruct (jvm_encrypt (spark self) v1) as [v2|e]; [|discriminate].
    cbn [bind] in Hn. now injection Hn as <-.
Qed.

End Claims.

(** *** The theorems on the sample session *)

Lemma connection_string_prestep_witness :
  heap sample_world !! options sample_source = Some sample_options /\
  encrypt_calls (events_of (read Batch sample_source sample_world)) = ["Endpoint=sb://x"%string].
Proof.
  assert (H : heap sample_world !! options sample_source = Some sample_options)
    by (vm_compute; reflexivity).
  split; [exact H|].
  destruct (connection_string_prestep nat nat Batch sample_source sample_world
              sample_options H) as (_ & _ & _ & Hs).
  exact (proj1 (Hs "Endpoint=sb://x"%string eq_refl)).
Defined.

Lemma load_exception_reraised_witness :
  (result_of (read Batch unreachable_source sample_world) = Raise sample_failure /\
   load_outcomes (events_of (read Batch unreachable_source sample_world)) =
     [Raise sample_failure]) /\
  (result_of (read Streaming sample_source sample_world) = Raise sample_failure /\
   load_outcomes (events_of (read Streaming sample_source sample_world)) =
     [Raise sample_failure]).
Proof.
  split.
  - assert (H1 : heap sample_world !! options unreachable_source = Some sample_options)
      by (vm_compute; reflexivity).
    assert (H2 : options_sent (spark unreachable_source) sample_options =
                 Ok (<[connectionString := "enc:Endpoint=sb://x"%string]> sample_options))
      by (vm_compute; reflexivity).
    assert (H3 : load (spark unreachable_source) Batch "eventhubs"
                   (<[connectionString := "enc:Endpoint=sb://x"%string]> sample_options)
                   (outside sample_world) = (Raise sample_failure, 1%nat))
      by reflexivity.
    destruct (load_exception_reraised nat nat Batch unreachable_source sample_world
                _ _ _ _ H1 H2 H3) as (Hr & _ & Ho & _).
    exact (conj Hr Ho).
  - assert (H1 : heap sample_world !! options sample_source = Some sample_options)
      by (vm_compute; reflexivity).
    assert (H2 : options_sent (spark sample_source) sample_options =
                 Ok (<[connectionString := "enc:Endpoint=sb://x"%string]> sample_options))
      by (vm_compute; reflexivity).
    assert (H3 : load (spark sample_source) Streaming "eventhubs"
                   (<[connectionString := "enc:Endpoint=sb://x"%string]> sample_options)
                   (outside sample_world) = (Raise sample_failure, 1%nat))
      by reflexivity.
    destruct (load_exception_reraised nat nat Streaming sample_source sample_world
                _ _ _ _ H1 H2 H3) as (Hr & _ & Ho & _).
    exact (conj Hr Ho).
Defined.

Lemma encryption_compounds_witness :
  heap (reads [Batch; Streaming] sample_source sample_world) !! options sample_source =
  Some (<[connectionString := "enc:enc:Endpoint=sb://x"%string]> sample_options).
Proof.
  refine (proj1 (encryption_compounds nat nat [Batch; Streaming] sample_source sample_world
                   sample_options "Endpoint=sb://x" "enc:enc:Endpoint=sb://x" _ _ _));
    vm_compute; reflexivity.
Defined.

End EventhubClaims.

(** ** The Auto Loader source *)

Module AutoLoaderClaims.
Import AutoLoader.

(** C9. The one-shot read of the Auto Loader source raises
    [NotImplementedError] with exactly the documented message, whatever the
    source was built with; the repository's test of it passes. *)
Theorem read_batch_not_supported (DF : Type) (self : DataBricksAutoLoaderSource) :
  @read_batch DF self =
    Raise (NotImplementedError
      "Auto Loader only supports streaming reads. To perform a batch read, use the read_stream method and specify Trigger on the write_stream as `availableNow=True`") /\
  test_databricks_autoloader_read_batch = true.
Proof. split; [reflexivity|vm_compute; reflexivity]. Qed.

End AutoLoaderClaims.

(** ** Further properties of the transformer *)

Module EdgeXExtras.
Import Spark EdgeXJsonToPCDM SparkFacts EdgeXFacts EdgeXClaims.

Section Extras.
Variable parse_json : string -> option EdgeXEvent.

Lemma unreadable_no_readings v :
  unreadable parse_json v -> payload_readings parse_json v = [].
Proof.
  intros [->|[(s & -> & Hs)|(s & e & -> & Hs & Hr)]]; cbn [payload_readings].
  - reflexivity.
  - now rewrite Hs.
  - rewrite Hs. destruct Hr as [Hr|Hr]; now rewrite Hr.
Qed.



(** X2. An input row whose payload is unreadable (a null, a string the
    parser rejects, an event with null or empty readings) is dropped
    without a trace: the result is that of the input without the row. *)
Theorem unreadable_row_dropped conf self i rs1 row rs2 :
  analysable conf (data self) i ->
  rows (data self) = rs1 ++ row :: rs2 ->
  unreadable parse_json (nth i row Null) ->
  transform parse_json conf self = transform parse_json conf (on_rows self (rs1 ++ rs2)).
Proof.
  intros H Hrows Hbad.
  rewrite (transform_analysable parse_json conf self i H).
  rewrite (transform_analysable parse_json conf (on_rows self (rs1 ++ rs2)) i H).
  f_equal. f_equal. unfold input_readings. cbn [on_rows data rows].
  rewrite Hrows. rewrite !flat_map_app. cbn [flat_map].
  rewrite (unreadable_no_readings _ Hbad). reflexivity.
Qed.

(** X3. [transform] works row by row: on the rows [rs1 ++ rs2] it returns
    the rows it returns on [rs1] followed by those it returns on [rs2]. *)
Theorem transform_app conf self i rs1 rs2 :
  analysable conf (data self) i ->
  rows (data self) = rs1 ++ rs2 ->
  exists out out1 out2,
    transform parse_json conf self = Ok out /\
    transform parse_json conf (on_rows self rs1) = Ok out1 /\
    transform parse_json conf (on_rows self rs2) = Ok out2 /\
    columns out1 = columns out /\ columns out2 = columns out /\
    rows out = rows out1 ++ rows out2.
Proof.
  intros H Hrows. do 3 eexists.
  split; [apply (transform_analysable parse_json conf self i H)|].
  split; [apply (transform_analysable parse_json conf (on_rows self rs1) i H)|].
  split; [apply (transform_analysable parse_json conf (on_rows self rs2) i H)|].
  split; [reflexivity|]. split; [reflexivity|].
  cbn [rows]. unfold input_readings. cbn [on_rows data rows]. rewrite Hrows.
  now rewrite flat_map_app, map_app.
Qed.

(** X4. Only the payload column matters: two accepted inputs whose [body]
    cells agree row for row give the same result, whatever their other
    columns are and wherever [body] stands. *)
Theorem extra_columns_ignored conf self1 self2 i1 i2 :
  analysable conf (data self1) i1 ->
  analysable conf (data self2) i2 ->
  map (fun row => nth i1 row Null) (rows (data self1)) =
  map (fun row => nth i2 row Null) (rows (data self2)) ->
  status_null_value self1 = status_null_value self2 ->
  change_type_value self1 = change_type_value self2 ->
  transform parse_json conf self1 = transform parse_json conf self2.
Proof.
  intros H1 H2 Hbody Hs Hc.
  rewrite (transform_analysable parse_json conf self1 i1 H1).
  rewrite (transform_analysable parse_json conf self2 i2 H2).
  f_equal. f_equal.
  assert (Hin : input_readings parse_json i1 (data self1) =
                input_readings parse_json i2 (data self2)).
  { unfold input_readings.
    rewrite <- (flat_map_of_map (payload_readings parse_json) (fun row => nth i1 row Null)).
    rewrite <- (flat_map_of_map (payload_readings parse_json) (fun row => nth i2 row Null)).
    now rewrite Hbody. }
  rewrite Hin. apply map_ext. intros er. unfold pcdm_row. now rewrite Hs, Hc.
Qed.

(** X5. The tag name and the value pass through: the output row of a
    reading carries the device name of the reading's event and the
    reading's value as the parser gave it, whatever bucket the value type
    falls in. *)
Theorem tag_and_value_pass_through conf self i :
  analysable conf (data self) i ->
  exists out,
    transform parse_json conf self = Ok out /\
    nth 0 (columns out) ""%string = "TagName"%string /\
    nth 3 (columns out) ""%string = "Value"%string /\
    Forall2 (fun (er : EdgeXEvent * option Reading) (row : Row) =>
               nth 0 row Null = of_string (deviceName (fst er)) /\
               forall r, snd er = Some r -> nth 3 row Null = of_string (value r))
            (input_readings parse_json i (data self)) (rows out).
Proof.
  intros H. eexists. split; [apply (transform_analysable _ _ _ _ H)|].
  split; [reflexivity|]. split; [reflexivity|].
  cbn [rows]. apply Forall2_map_self. intros [e r]. cbn [fst snd].
  split; [reflexivity|]. intros r' ->. reflexivity.
Qed.

(** X6. Nulls do not stop a row: a reading without an origin gets a null
    event time, and a null entry of the readings array still gives a row,
    with null event time and value and the bucket "string". *)
Theorem null_readings_kept conf self i :
  analysable conf (data self) i ->
  exists out,
    transform parse_json conf self = Ok out /\
    Forall2 (fun (er : EdgeXEvent * option Reading) (row : Row) =>
               (forall r, snd er = Some r -> origin r = None -> nth 1 row Null = Null) /\
               (snd er = None ->
                nth 1 row Null = Null /\ nth 3 row Null = Null /\
                nth 4 row Null = Str "string"))
            (input_readings parse_json i (data self)) (rows out).
Proof.
  intros H. eexists. split; [apply (transform_analysable _ _ _ _ H)|].
  cbn [rows]. apply Forall2_map_self. intros [e r]. cbn [fst snd].
  unfold pcdm_row. cbn [fst snd nth]. split.
  - intros r' -> Ho. cbn [origin_of]. rewrite Ho. reflexivity.
  - intros ->. repeat split.
Qed.

(** X7. The output is rectangular and has one row per reading: every row
    has as many cells as there are columns, and there are as many rows as
    the payloads hold readings; an accepted input without rows gives an
    output without rows. *)
Theorem output_shape conf self i :
  analysable conf (data self) i ->
  exists out,
    transform parse_json conf self = Ok out /\
    Forall (fun row => length row = length (columns out)) (rows out) /\
    length (rows out) = length (input_readings parse_json i (data self)) /\
    (rows (data self) = [] -> rows out = []).
Proof.
  intros H. eexists. split; [apply (transform_analysable _ _ _ _ H)|].
  cbn [rows]. split; [|split].
  - apply List.Forall_forall. intros row Hin. apply in_map_iff in Hin.
    destruct Hin as [er [<- _]]. reflexivity.
  - apply length_map.
  - intros Hr. unfold input_readings. now rewrite Hr.
Qed.

End Extras.

(** *** On the sample data *)

Lemma unreadable_row_dropped_witness :
  transform sample_parser (sample_conf 0) sample_transformer =
  transform sample_parser (sample_conf 0)
    (on_rows sample_transformer
       ([ [Str "0"; Str "{pump}"; Long 7] ] ++ [ [Str "1"; Str "{valve}"; Long 9] ])).
Proof.
  refine (unreadable_row_dropped sample_parser (sample_conf 0) sample_transformer 1%nat
            [ [Str "0"; Str "{pump}"; Long 7] ] [Str "0"; Str "garbage"; Long 8]
            [ [Str "1"; Str "{valve}"; Long 9] ]
            (sample_analysable 0) _ _); [reflexivity|].
  right. left. exists "garbage"%string. split; reflexivity.
Defined.

Lemma transform_app_witness :
  exists out out1 out2,
    transform sample_parser (sample_conf 0) sample_transformer = Ok out /\
    transform sample_parser (sample_conf 0)
      (on_rows sample_transformer [ [Str "0"; Str "{pump}"; Long 7] ]) = Ok out1 /\
    transform sample_parser (sample_conf 0)
      (on_rows sample_transformer [ [Str "0"; Str "garbage"; Long 8];
                                    [Str "1"; Str "{valve}"; Long 9] ]) = Ok out2 /\
    columns out1 = columns out /\ columns out2 = columns out /\
    rows out = rows out1 ++ rows out2.
Proof.
  refine (transform_app sample_parser (sample_conf 0) sample_transformer 1%nat
            [ [Str "0"; Str "{pump}"; Long 7] ]
            [ [Str "0"; Str "garbage"; Long 8]; [Str "1"; Str "{valve}"; Long 9] ]
            (sample_analysable 0) _); reflexivity.
Defined.

Lemma extra_columns_ignored_witness :
  transform sample_parser (sample_conf 0) sample_transformer =
  transform sample_parser (sample_conf 0) (__init__ payload_only_data None None).
Proof.
  refine (extra_columns_ignored sample_parser (sample_conf 0) sample_transformer
            (__init__ payload_only_data None None) 1%nat 0%nat (sample_analysable 0) _ _ _ _);
    try reflexivity.
  repeat split; vm_compute; reflexivity.
Defined.

Lemma tag_and_value_pass_through_witness :
  nth_error (input_readings sample_parser 1 (data sample_transformer)) 0 =
    Some (sample_event, Some (sample_reading "Int8" 1000000000)) /\
  exists out,
    transform sample_parser (sample_conf 0) sample_transformer = Ok out /\
    Forall2 (fun (er : EdgeXEvent * option Reading) (row : Row) =>
               nth 0 row Null = of_string (deviceName (fst er)) /\
               forall r, snd er = Some r -> nth 3 row Null = of_string (value r))
            (input_readings sample_parser 1 (data sample_transformer)) (rows out).
Proof.
  split; [vm_compute; reflexivity|].
  destruct (tag_and_value_pass_through sample_parser (sample_conf 0) sample_transformer
              1%nat (sample_analysable 0)) as (out & Hout & _ & _ & Hrows).
  exists out. split; [exact Hout|exact Hrows].
Defined.

(** The sample has a null entry and a reading without origin. *)
Lemma null_readings_kept_witness :
  nth_error (input_readings sample_parser 1 (data sample_transformer)) 3 =
    Some (sparse_event, None) /\
  nth_error (input_readings sample_parser 1 (data sample_transformer)) 4 =
    Some (sparse_event, Some {| origin := None; value := None; valueType := None |}) /\
  exists out,
    transform sample_parser (sample_conf 0) sample_transformer = Ok out /\
    Forall2 (fun (er : EdgeXEvent * option Reading) (row : Row) =>
               (forall r, snd er = Some r -> origin r = None -> nth 1 row Null = Null) /\
               (snd er = None ->
                nth 1 row Null = Null /\ nth 3 row Null = Null /\
                nth 4 row Null = Str "string"))
            (input_readings sample_parser 1 (data sample_transformer)) (rows out).
Proof.
  split; [vm_compute; reflexivity|]. split; [vm_compute; reflexivity|].
  exact (null_readings_kept sample_parser (sample_conf 0) sample_transformer 1%nat
           (sample_analysable 0)).
Defined.

Lemma output_shape_witness :
  length (input_readings sample_parser 1 (data sample_transformer)) = 5%nat /\
  exists out,
    transform sample_parser (sample_conf 0) sample_transformer = Ok out /\
    Forall (fun row => length row = length (columns out)) (rows out) /\
    length (rows out) = length (input_readings sample_parser 1 (data sample_transformer)) /\
    (rows (data sample_transformer) = [] -> rows out = []).
Proof.
  split; [vm_compute; reflexivity|].
  exact (output_shape sample_parser (sample_conf 0) sample_transformer 1%nat
           (sample_analysable 0)).
Defined.

End EdgeXExtras.

(** ** Further properties of the Eventhub source *)

Module EventhubExtras.
Import Eventhub EventhubFacts.

Section Extras.
Variables (DF X : Type).
Implicit Types (self : SparkEventhubSource DF X) (w : World X) (m : ReadMode).

Lemma load_step_prints_and_logs_Ok m self w opts pre df :
  result_of (load_step m self w opts pre) = Ok df ->
  prints_and_logs (events_of (load_step m self w opts pre)) = prints_and_logs pre /\
  load_outcomes (events_of (load_step m self w opts pre)) = load_outcomes pre ++ [Ok df] /\
  load (spark self) m "eventhubs" opts (outside w) =
    (Ok df, outside (world_of (load_step m self w opts pre))).
Proof.
  unfold load_step. destruct (load _ _ _ _ _) as [[df'|e] x];
    cbn [result_of events_of world_of fst snd outside]; intros H; [|discriminate].
  injection H as ->. unfold prints_and_logs, load_outcomes.
  rewrite List.filter_app, flat_map_app. cbn. rewrite app_nil_r. auto.
Qed.

(** X8. A read touches one entry of one dictionary: every other dictionary
    of the store, and every other key of the options mapping, is as it was;
    no key is added or removed. *)
Theorem read_frame m self w o :
  heap w !! options self = Some o ->
  let w' := world_of (read m self w) in
  (forall l, l <> options self -> heap w' !! l = heap w !! l) /\
  exists o', heap w' !! options self = Some o' /\
             dom o' = dom o /\
             forall k, k <> connectionString -> o' !! k = o !! k.
Proof.
  intros Ho w'. subst w'. rewrite read_eq, (stored_Some _ _ _ _ _ Ho).
  destruct (o !! connectionString) as [v|] eqn:Hk.
  - destruct (jvm_encrypt (spark self) v) as [enc|e].
    + rewrite load_step_heap. cbn [heap]. split.
      * intros l Hl. now rewrite lookup_insert_ne.
      * exists (<[connectionString := enc]> o). split; [apply lookup_insert_eq|].
        split.
        -- apply dom_insert_lookup_L. now exists v.
        -- intros k Hne. now rewrite lookup_insert_ne.
    + cbn [world_of fst snd]. split; [reflexivity|]. exists o. auto.
  - rewrite load_step_heap. split; [reflexivity|]. exists o. auto.
Qed.

(** X9. When the encryption raises, the read stops there: no load is
    issued, nothing is written, the store and the world outside are as
    they were, and the exception is printed, logged and raised. *)
Theorem encryption_failure m self w o v e :
  heap w !! options self = Some o ->
  o !! connectionString = Some v ->
  jvm_encrypt (spark self) v = Raise e ->
  read m self w =
  (Raise e, w,
   [EncryptCall v (Raise e); Print (exc_message e); LogException (log_message m) e]).
Proof.
  intros Ho Hk He. now rewrite read_eq, (stored_Some _ _ _ _ _ Ho), Hk, He.
Qed.

(** X10. A read that returns a dataset returns the one the load gave, after
    exactly one load, and prints and logs nothing; the world outside is
    what the load left. *)
Theorem successful_read m self w df :
  result_of (read m self w) = Ok df ->
  let t := events_of (read m self w) in
  prints_and_logs t = [] /\
  load_outcomes t = [Ok df] /\
  exists opts, load_requests t = [(m, "eventhubs"%string, opts)] /\
               load (spark self) m "eventhubs" opts (outside w) =
                 (Ok df, outside (world_of (read m self w))).
Proof.
  rewrite read_eq.
  destruct (stored self w !! connectionString) as [v|].
  - destruct (jvm_encrypt (spark self) v) as [enc|e].
    + intros H t. subst t.
      destruct (load_step_prints_and_logs_Ok _ _ _ _ _ _ H) as (Hp & Ho & Hl).
      rewrite Hp, Ho, load_step_requests. repeat split.
      eexists. split; [reflexivity|]. exact Hl.
    + intros H. discriminate.
  - intros H t. subst t.
    destruct (load_step_prints_and_logs_Ok _ _ _ _ _ _ H) as (Hp & Ho & Hl).
    rewrite Hp, Ho, load_step_requests. repeat split.
    eexists. split; [reflexivity|]. exact Hl.
Qed.

(** X11. The rewrite is not undone: when the load raises after the
    connection string was encrypted, the read raises the load's exception
    and the mapping keeps the encrypted string. *)
Theorem failed_load_keeps_rewrite m self w o v enc e x :
  heap w !! options self = Some o ->
  o !! connectionString = Some v ->
  jvm_encrypt (spark self) v = Ok enc ->
  load (spark self) m "eventhubs" (<[connectionString := enc]> o) (outside w) = (Raise e, x) ->
  result_of (read m self w) = Raise e /\
  heap (world_of (read m self w)) !! options self = Some (<[connectionString := enc]> o) /\
  outside (world_of (read m self w)) = x.
Proof.
  intros Ho Hk He Hl. rewrite read_eq, (stored_Some _ _ _ _ _ Ho), Hk, He.
  unfold load_step. cbn [outside]. rewrite Hl.
  cbn [result_of world_of fst snd heap outside].
  split; [reflexivity|]. split; [apply lookup_insert_eq|reflexivity].
Qed.

(** X12. Two sources built on one mapping interfere: after a read through
    the first, a read through the second passes the first's encrypted
    string to the encryption. *)
Theorem shared_mapping_reencrypted m1 m2 self1 self2 w o v v1 :
  options self1 = options self2 ->
  heap w !! options self1 = Some o ->
  o !! connectionString = Some v ->
  jvm_encrypt (spark self1) v = Ok v1 ->
  encrypt_calls (events_of (read m2 self2 (world_of (read m1 self1 w)))) = [v1].
Proof.
  intros Hsame Ho Hk He.
  assert (Hw : heap (world_of (read m1 self1 w)) !! options self2 =
               Some (<[connectionString := v1]> o)).
  { rewrite read_eq, (stored_Some _ _ _ _ _ Ho), Hk, He, load_step_heap.
    cbn [heap]. rewrite <- Hsame. apply lookup_insert_eq. }
  rewrite read_eq, (stored_Some _ _ _ _ _ Hw), lookup_insert_eq.
  destruct (jvm_encrypt (spark self2) v1) as [v2|e].
  - now rewrite load_step_encrypt_calls.
  - reflexivity.
Qed.

End Extras.

(** *** On the sample session *)

Lemma read_frame_witness :
  heap sample_world !! options sample_source = Some sample_options /\
  exists o', heap (world_of (read Batch sample_source sample_world)) !! options sample_source
             = Some o' /\
             o' !! "eventhubs.consumerGroup"%string = Some "$Default"%string.
Proof.
  assert (H : heap sample_world !! options sample_source = Some sample_options)
    by (vm_compute; reflexivity).
  split; [exact H|].
  destruct (read_frame nat nat Batch sample_source sample_world sample_options H)
    as (_ & o' & Ho' & _ & Hk).
  exists o'. split; [exact Ho'|]. rewrite Hk; [vm_compute; reflexivity|discriminate].
Defined.

Lemma encryption_failure_witness :
  read Batch failing_source sample_world =
  (Raise sample_failure, sample_world,
   [EncryptCall "Endpoint=sb://x" (Raise sample_failure);
    Print (exc_message sample_failure);
    LogException (log_message Batch) sample_failure]).
Proof.
  refine (encryption_failure nat nat Batch failing_source sample_world sample_options
            "Endpoint=sb://x" sample_failure _ _ _); vm_compute; reflexivity.
Defined.

Lemma successful_read_witness :
  prints_and_logs (events_of (read Batch sample_source sample_world)) = [] /\
  load_outcomes (events_of (read Batch sample_source sample_world)) = [Ok 0%nat].
Proof.
  assert (H : result_of (read Batch sample_source sample_world) = Ok 0%nat)
    by (vm_compute; reflexivity).
  destruct (successful_read nat nat Batch sample_source sample_world 0%nat H)
    as (Hp & Ho & _).
  exact (conj Hp Ho).
Defined.

Lemma failed_load_keeps_rewrite_witness :
  result_of (read Streaming sample_source sample_world) = Raise sample_failure /\
  heap (world_of (read Streaming sample_source sample_world)) !! options sample_source =
    Some (<[connectionString := "enc:Endpoint=sb://x"%string]> sample_options) /\
  outside (world_of (read Streaming sample_source sample_world)) = 1%nat.
Proof.
  refine (failed_load_keeps_rewrite nat nat Streaming sample_source sample_world
            sample_options "Endpoint=sb://x" "enc:Endpoint=sb://x" sample_failure 1%nat
            _ _ _ _); vm_compute; reflexivity.
Defined.

Lemma shared_mapping_reencrypted_witness :
  encrypt_calls (events_of (read Streaming sample_source
                              (world_of (read Batch sample_source sample_world)))) =
  ["enc:Endpoint=sb://x"%string].
Proof.
  refine (shared_mapping_reencrypted nat nat Batch Streaming sample_source sample_source
            sample_world sample_options "Endpoint=sb://x" "enc:Endpoint=sb://x" _ _ _ _);
    vm_compute; reflexivity.
Defined.

End EventhubExtras.
